(** * Squall-Core: the event dispatcher and its watchers

    A shallow embedding of [squall/Watcher.hxx] and [squall/Dispatcher.hxx]
    (the revision with [m_cleaning] and the [Loop] handle), and the
    properties of the dispatcher's registry, delivery rule and cleanup scan.

    Conventions of the embedding.
    - A C [int] is a [Z]; the code only compares and copies the file
      descriptors, signal numbers and event masks it is given.
    - A C [double] is an IEEE-754 value, [spec_float]; the code only compares
      timeouts with zero and copies them.
    - A target's identity is the address of the caller's object
      ([const T *], the key of [std::map<const T *, Watchers>]), a [Z].
    - The event loop (libev) is not part of the repository. A loop watcher
      is the record of the fields the repository reads or sets, and
      [ev_TYPE_start] / [ev_TYPE_stop] are taken at their effect on these
      fields: the watcher becomes active, respectively inactive.
    - The callbacks [on_target_apply] and [on_target_free] are observed
      through the trace of calls kept in the state; the user handler
      [on_target_event] is a function of the state it is called in that
      yields its return value together with the dispatcher operations it
      invoked while it ran. *)

From Stdlib Require Import ZArith.
From Stdlib Require Import SpecFloat.
From stdpp Require Import base decidable option list numbers gmap fin_maps sorting.

Local Open Scope Z_scope.

(* stdpp's solvers clear hypotheses by name; the notice is of no interest. *)
#[local] Set Warnings "-clear-no-such-hyp".

(** ** Event codes: [enum Event] of Watcher.hxx, with the values of ev.h *)

Module Event.
Definition Read : Z := 0x01.
Definition Write : Z := 0x02.
Definition Timer : Z := 0x100.
Definition Signal : Z := 0x400.
Definition Cleanup : Z := 0x40000.
Definition Error : Z := -0x80000000.
End Event.

(** ** Doubles *)

Abbreviation double := spec_float (only parsing).

(** The literals [0] and [-1] converted to [double], and the value [1.0]. *)
Definition d_zero : double := S754_zero false.
Definition d_minus_one : double := S754_finite true 4503599627370496 (-52).
Definition d_one : double := S754_finite false 4503599627370496 (-52).

(** ** Loop watchers: what the repository sees of libev's structs *)

Record ev_timer := mk_ev_timer {
  timer_active : bool;
  timer_at : double;
  timer_repeat : double }.

Record ev_io := mk_ev_io {
  io_active : bool;
  io_fd : Z;
  io_events : Z }.

Record ev_signal := mk_ev_signal {
  signal_active : bool;
  signal_signum : Z }.

(** [W watcher = {}] : the zero-initialised struct. *)
Definition ev_timer_zero : ev_timer := mk_ev_timer false d_zero d_zero.
Definition ev_io_zero : ev_io := mk_ev_io false 0 0.
Definition ev_signal_zero : ev_signal := mk_ev_signal false 0.

(** The parameter macros of ev.h store their arguments in the watcher. *)
Definition ev_timer_set (w : ev_timer) (after repeat : double) : ev_timer :=
  mk_ev_timer (timer_active w) after repeat.

Definition ev_io_set (w : ev_io) (fd events : Z) : ev_io :=
  mk_ev_io (io_active w) fd events.

Definition ev_signal_set (w : ev_signal) (signum : Z) : ev_signal :=
  mk_ev_signal (signal_active w) signum.

(** What [GenericWatcher<W>] needs of a loop watcher [W]: the [active]
    field, and the specialisations of [start_watching] / [stop_watching],
    which call [ev_TYPE_start] / [ev_TYPE_stop]. *)
Class LoopWatcher (W : Type) := {
  active : W → bool;
  start_watching : W → W;
  stop_watching : W → W }.

#[global] Instance ev_timer_watcher : LoopWatcher ev_timer := {|
  active := timer_active;
  start_watching w := mk_ev_timer true (timer_at w) (timer_repeat w);
  stop_watching w := mk_ev_timer false (timer_at w) (timer_repeat w) |}.

#[global] Instance ev_io_watcher : LoopWatcher ev_io := {|
  active := io_active;
  start_watching w := mk_ev_io true (io_fd w) (io_events w);
  stop_watching w := mk_ev_io false (io_fd w) (io_events w) |}.

#[global] Instance ev_signal_watcher : LoopWatcher ev_signal := {|
  active := signal_active;
  start_watching w := mk_ev_signal true (signal_signum w);
  stop_watching w := mk_ev_signal false (signal_signum w) |}.

(** ** [GenericWatcher<W>] *)

Module GenericWatcher.
Section Generic.
Context {W : Type} `{LoopWatcher W}.

Definition is_active (w : W) : bool := active w.

(** [bool start()] *)
Definition start (w : W) : bool * W :=
  let w := if negb (is_active w) then start_watching w else w in
  (is_active w, w).

(** [void stop()] *)
Definition stop (w : W) : W :=
  if is_active w then stop_watching w else w.

End Generic.
End GenericWatcher.

(** ** [TimerWatcher] *)

Module TimerWatcher.

(** The constructor leaves the zero-initialised [ev_timer]. *)
Definition new : ev_timer := ev_timer_zero.

(** [bool start(double after, double repeat = 0)] *)
Definition start (after repeat : double) (w : ev_timer) : bool * ev_timer :=
  let after := if SFltb after d_zero then d_minus_one else after in
  let repeat := if SFltb repeat d_zero then d_zero else repeat in
  let w := if GenericWatcher.is_active w then GenericWatcher.stop w else w in
  let w := ev_timer_set w after repeat in
  let w := if SFleb d_zero after then start_watching w else w in
  (GenericWatcher.is_active w, w).

End TimerWatcher.

(** ** [IoWatcher] *)

Module IoWatcher.

(** [IoWatcher(target, loop)] : [ev_io_set(&watcher, -1, 0)]. *)
Definition new : ev_io := ev_io_set ev_io_zero (-1) 0.

Definition fileno (w : ev_io) : Z := io_fd w.

(** [bool start(int fileno, int revents)] *)
Definition start (fileno revents : Z) (w : ev_io) : bool * ev_io :=
  let fileno := if fileno <? 0 then -1 else fileno in
  let revents := if revents <? 0 then 0 else revents in
  let w := if GenericWatcher.is_active w then GenericWatcher.stop w else w in
  let w := ev_io_set w fileno revents in
  let w := if (0 <=? fileno) && (0 <? revents) then start_watching w else w in
  (GenericWatcher.is_active w, w).

(** [bool start(int revents)] : the overload that keeps the descriptor. *)
Definition start_mask (revents : Z) (w : ev_io) : bool * ev_io :=
  start (fileno w) revents w.

End IoWatcher.

(** ** [SignalWatcher] *)

Module SignalWatcher.

(** [SignalWatcher(target, loop)] : [ev_signal_set(&watcher, -1)]. *)
Definition new : ev_signal := ev_signal_set ev_signal_zero (-1).

Definition signum (w : ev_signal) : Z := signal_signum w.

(** [bool start(int signum)] *)
Definition start (signum : Z) (w : ev_signal) : bool * ev_signal :=
  let signum := if signum <? 0 then -1 else signum in
  let w := if GenericWatcher.is_active w then GenericWatcher.stop w else w in
  let w := ev_signal_set w signum in
  let w := if 0 <=? signum then start_watching w else w in
  (GenericWatcher.is_active w, w).

End SignalWatcher.

(** ** The abstract base [Watcher] and its three concrete classes *)

Inductive Watcher :=
  | WTimer (w : ev_timer)
  | WIo (w : ev_io)
  | WSignal (w : ev_signal).

Module Watcher.

(** [virtual bool is_active() const] *)
Definition is_active (w : Watcher) : bool :=
  match w with
  | WTimer t => GenericWatcher.is_active t
  | WIo i => GenericWatcher.is_active i
  | WSignal s => GenericWatcher.is_active s
  end.

(** [virtual bool start()] *)
Definition start (w : Watcher) : bool * Watcher :=
  match w with
  | WTimer t => prod_map id WTimer (GenericWatcher.start t)
  | WIo i => prod_map id WIo (GenericWatcher.start i)
  | WSignal s => prod_map id WSignal (GenericWatcher.start s)
  end.

(** [virtual void stop()] *)
Definition stop (w : Watcher) : Watcher :=
  match w with
  | WTimer t => WTimer (GenericWatcher.stop t)
  | WIo i => WIo (GenericWatcher.stop i)
  | WSignal s => WSignal (GenericWatcher.stop s)
  end.

End Watcher.

Abbreviation Watchers := (list Watcher) (only parsing).

(** ** The dispatcher's state *)

(** Calls the dispatcher makes to the three user callbacks. The payload of an
    event is the file descriptor or the signal number, or absent. *)
Inductive Call :=
  | OnApply (target : Z)
  | OnFree (target : Z)
  | OnEvent (target : Z) (revents : Z) (payload : option Z).

#[global] Instance Call_eq_dec : EqDecision Call.
Proof. solve_decision. Defined.

Record Dispatcher := mkDispatcher {
  m_cleaning : bool;
  targets : gmap Z Watchers;
  on_target_present : bool;
  calls : list Call }.

Definition set_cleaning (b : bool) (d : Dispatcher) : Dispatcher :=
  mkDispatcher b (targets d) (on_target_present d) (calls d).

Definition set_targets (m : gmap Z Watchers) (d : Dispatcher) : Dispatcher :=
  mkDispatcher (m_cleaning d) m (on_target_present d) (calls d).

Definition record_call (c : Call) (d : Dispatcher) : Dispatcher :=
  mkDispatcher (m_cleaning d) (targets d) (on_target_present d) (calls d ++ [c]).

(** The two constructors: without and with the apply/free hooks. The
    cleanup watcher they register with the loop shows in the runs below as
    the action that starts a cleanup scan. *)
Definition Dispatcher_new (hooks : bool) : Dispatcher :=
  mkDispatcher false ∅ hooks [].

(** ** [setup_watching<W>]

    [fresh] is [new W(on_target_event, m_loop)]. The result is the position,
    in the target's sequence, of the watcher the returned pointer refers to. *)
Definition setup_watching (fresh : Watcher) (target : Z)
    (approve : Watcher → bool) (d : Dispatcher) : nat * Dispatcher :=
  let d :=
    match targets d !! target with
    | Some _ => d
    | None =>
        let d := set_targets (<[target := []]> (targets d)) d in
        if on_target_present d then record_call (OnApply target) d else d
    end in
  let found := default [] (targets d !! target) in
  match list_find (λ w, approve w = true) found with
  | Some (i, _) => (i, d)
  | None =>
      (length found, set_targets (<[target := found ++ [fresh]]> (targets d)) d)
  end.

(** [p_watcher->f(...)] for the watcher at position [i] of [target]. *)
Definition call_watcher (target : Z) (i : nat) (f : Watcher → bool * Watcher)
    (d : Dispatcher) : bool * Dispatcher :=
  match targets d !! target ≫= (λ ws, ws !! i) with
  | Some w =>
      let '(r, w) := f w in
      (r, set_targets (alter (λ ws, <[i := w]> ws) target (targets d)) d)
  | None => (false, d)
  end.

(** The [approve] closures of the three [watch_*] methods. *)
Definition approve_timer (w : Watcher) : bool :=
  match w with WTimer _ => true | _ => false end.

Definition approve_io (fileno : Z) (w : Watcher) : bool :=
  match w with
  | WIo i =>
      let fileno_ := IoWatcher.fileno i in
      (fileno_ =? fileno) || (fileno_ =? -1)
  | _ => false
  end.

Definition approve_signal (signum : Z) (w : Watcher) : bool :=
  match w with
  | WSignal s =>
      let signum_ := SignalWatcher.signum s in
      (signum_ =? signum) || (signum_ =? -1)
  | _ => false
  end.

(** The typed [start] of the watcher [setup_watching<W>] returned. *)
Definition start_timer (after repeat : double) (w : Watcher) : bool * Watcher :=
  match w with
  | WTimer t => prod_map id WTimer (TimerWatcher.start after repeat t)
  | _ => (false, w)
  end.

Definition start_io (fileno events : Z) (w : Watcher) : bool * Watcher :=
  match w with
  | WIo i => prod_map id WIo (IoWatcher.start fileno events i)
  | _ => (false, w)
  end.

Definition start_signal (signum : Z) (w : Watcher) : bool * Watcher :=
  match w with
  | WSignal s => prod_map id WSignal (SignalWatcher.start signum s)
  | _ => (false, w)
  end.

(** ** The public operations *)

Definition watch_timer (target : Z) (timeout : double) (d : Dispatcher)
    : bool * Dispatcher :=
  if negb (m_cleaning d) then
    let '(i, d) := setup_watching (WTimer TimerWatcher.new) target approve_timer d in
    call_watcher target i (start_timer timeout timeout) d
  else (false, d).

Definition watch_io (target : Z) (fileno events : Z) (d : Dispatcher)
    : bool * Dispatcher :=
  if negb (m_cleaning d) then
    let '(i, d) := setup_watching (WIo IoWatcher.new) target (approve_io fileno) d in
    call_watcher target i (start_io fileno events) d
  else (false, d).

Definition watch_signal (target : Z) (signum : Z) (d : Dispatcher)
    : bool * Dispatcher :=
  if negb (m_cleaning d) then
    let '(i, d) :=
      setup_watching (WSignal SignalWatcher.new) target (approve_signal signum) d in
    call_watcher target i (start_signal signum) d
  else (false, d).

(** One round of [if (!up_watcher->is_active()) up_watcher->start();] *)
Definition enable_one (w : Watcher) : Watcher :=
  if negb (Watcher.is_active w) then (Watcher.start w).2 else w.

Definition enable_watching (target : Z) (d : Dispatcher) : bool * Dispatcher :=
  if negb (m_cleaning d) then
    match targets d !! target with
    | Some found =>
        (true, set_targets (<[target := enable_one <$> found]> (targets d)) d)
    | None => (false, d)
    end
  else (false, d).

Definition disable_watching (target : Z) (d : Dispatcher) : bool * Dispatcher :=
  match targets d !! target with
  | Some found =>
      (true, set_targets (<[target := Watcher.stop <$> found]> (targets d)) d)
  | None => (false, d)
  end.

Definition release_watching (target : Z) (d : Dispatcher) : bool * Dispatcher :=
  match targets d !! target with
  | Some found =>
      let d := set_targets (<[target := Watcher.stop <$> found]> (targets d)) d in
      let d := set_targets (<[target := []]> (targets d)) d in
      let d := set_targets (delete target (targets d)) d in
      (true, if on_target_present d then record_call (OnFree target) d else d)
  | None => (false, d)
  end.

(** ** What a user handler may do to the dispatcher while it runs

    The six operations on the registry. A handler is taken not to start a
    cleanup scan of its own, nor to destroy the dispatcher. *)

Inductive Op :=
  | WatchTimer (target : Z) (timeout : double)
  | WatchIo (target : Z) (fileno events : Z)
  | WatchSignal (target : Z) (signum : Z)
  | EnableWatching (target : Z)
  | DisableWatching (target : Z)
  | ReleaseWatching (target : Z).

Definition run_op (o : Op) (d : Dispatcher) : bool * Dispatcher :=
  match o with
  | WatchTimer t timeout => watch_timer t timeout d
  | WatchIo t fileno events => watch_io t fileno events d
  | WatchSignal t signum => watch_signal t signum d
  | EnableWatching t => enable_watching t d
  | DisableWatching t => disable_watching t d
  | ReleaseWatching t => release_watching t d
  end.

Definition run_ops (ops : list Op) (d : Dispatcher) : Dispatcher :=
  foldl (λ d o, (run_op o d).2) d ops.

(** [OnTargetEvent<T>] : the handler's return value and the operations it
    invoked, given the target, the event mask, the payload and the
    dispatcher as the handler finds it. *)
Abbreviation OnTargetEvent :=
  (Z → Z → option Z → Dispatcher → bool * list Op) (only parsing).

(** [std::map] iterates in ascending key order. *)
Definition key_le : relation (Z * Watchers) := λ p q, p.1 ≤ q.1.

#[global] Instance key_le_dec : RelDecision key_le.
Proof. intros p q. unfold key_le. apply _. Defined.

Definition target_pairs (d : Dispatcher) : list (Z * Watchers) :=
  merge_sort key_le (map_to_list (targets d)).

(** The inner loop of the scan: does the sequence hold an active watcher? *)
Definition any_active (ws : Watchers) : bool := existsb Watcher.is_active ws.

Section Dispatching.
Variable on_target_event : OnTargetEvent.

(** [void handler(const T *target, int revents, const void *payload)] *)
Definition handler (target : Z) (revents : Z) (payload : option Z)
    (d : Dispatcher) : Dispatcher :=
  let d := (disable_watching target d).2 in
  let '(r, ops) := on_target_event target revents payload d in
  let d := run_ops ops (record_call (OnEvent target revents payload) d) in
  if r then (enable_watching target d).2 else d.

(** [void cleanup()] *)
Definition cleanup (d : Dispatcher) : Dispatcher :=
  let d := set_cleaning true d in
  let all := (target_pairs d).*1 in
  let active := (filter (λ p, any_active p.2 = true) (target_pairs d)).*1 in
  let d := foldl (λ d target, handler target Event.Cleanup None d) d active in
  let d := foldl (λ d target, (release_watching target d).2) d all in
  set_cleaning false d.

(** [~Dispatcher()] *)
Definition destroy (d : Dispatcher) : Dispatcher := cleanup d.

(** The payload a watcher hands to the handler when the loop fires it. *)
Definition payload_of (w : Watcher) : option Z :=
  match w with
  | WTimer _ => None
  | WIo i => Some (io_fd i)
  | WSignal s => Some (signal_signum s)
  end.

(** A run of the dispatcher: calls of the public operations by the caller,
    events the loop delivers to the watcher at some position of a target's
    sequence (only an active watcher fires), and cleanup scans. *)
Inductive Action :=
  | Invoke (o : Op)
  | Fire (target : Z) (i : nat) (revents : Z)
  | Cleanup.

Definition fire (target : Z) (i : nat) (revents : Z) (d : Dispatcher) : Dispatcher :=
  match targets d !! target ≫= (λ ws, ws !! i) with
  | Some w =>
      if Watcher.is_active w then handler target revents (payload_of w) d else d
  | None => d
  end.

Definition step (a : Action) (d : Dispatcher) : Dispatcher :=
  match a with
  | Invoke o => (run_op o d).2
  | Fire target i revents => fire target i revents d
  | Cleanup => cleanup d
  end.

Definition run (acts : list Action) (d : Dispatcher) : Dispatcher :=
  foldl (λ d a, step a d) d acts.

End Dispatching.

(** * The Python binding: [squall::python::Dispatcher]

    The three [watch_*] wrappers of the binding call the method of the
    base class and throw [std::runtime_error] when it returns false. *)

Module PyDispatcher.

(** [std::runtime_error("Cannot setup timer watcher")], and the like. *)
Inductive runtime_error :=
  | CannotSetupTimerWatcher
  | CannotSetupIoWatcher
  | CannotSetupSignalWatcher.

(** [void watch_timer(PyObject *target, double timeout)] : the exception
    thrown, if any, and the state. *)
Definition watch_timer (target : Z) (timeout : double) (d : Dispatcher)
    : option runtime_error * Dispatcher :=
  let '(r, d) := watch_timer target timeout d in
  (if negb r then Some CannotSetupTimerWatcher else None, d).

Definition watch_io (target fd events : Z) (d : Dispatcher)
    : option runtime_error * Dispatcher :=
  let '(r, d) := watch_io target fd events d in
  (if negb r then Some CannotSetupIoWatcher else None, d).

Definition watch_signal (target signum : Z) (d : Dispatcher)
    : option runtime_error * Dispatcher :=
  let '(r, d) := watch_signal target signum d in
  (if negb r then Some CannotSetupSignalWatcher else None, d).

End PyDispatcher.

(** * Vocabulary of the properties *)

(** ** The common shape of the three [watch_*] methods *)

(** The body the three methods share once the gate on [m_cleaning] is
    passed: select or append a watcher, then start it. *)
Definition watch_body (fresh : Watcher) (approve : Watcher → bool)
    (start : Watcher → bool * Watcher) (target : Z) (d : Dispatcher)
    : bool * Dispatcher :=
  let '(i, d) := setup_watching fresh target approve d in
  call_watcher target i start d.

(** The sequence of the target before the call, the watcher the scan
    selects, its position, and the sequence it then sits in. *)
Definition found_of (target : Z) (d : Dispatcher) : Watchers :=
  default [] (targets d !! target).

Definition selected (fresh : Watcher) (approve : Watcher → bool)
    (found : Watchers) : nat * Watcher :=
  default (length found, fresh) (list_find (λ w, approve w = true) found).

Definition extended (fresh : Watcher) (approve : Watcher → bool)
    (found : Watchers) : Watchers :=
  match list_find (λ w, approve w = true) found with
  | Some _ => found
  | None => found ++ [fresh]
  end.

(** The state after the hooks had their say on a first appearance. *)
Definition applied (target : Z) (d : Dispatcher) : Dispatcher :=
  match targets d !! target with
  | Some _ => d
  | None => if on_target_present d then record_call (OnApply target) d else d
  end.

(** ** Example states *)

(** A dispatcher in its cleanup scan that still holds target 1 with an
    armed timer. *)
Definition scanning_example : Dispatcher :=
  mkDispatcher true {[ 1 := [WTimer (mk_ev_timer true d_zero d_zero)] ]} true [].

(** ** Kinds of watchers and the outcome of a failed call *)

Definition is_timer (w : Watcher) : bool :=
  match w with WTimer _ => true | _ => false end.

Definition is_io (w : Watcher) : bool :=
  match w with WIo _ => true | _ => false end.

Definition is_signal (w : Watcher) : bool :=
  match w with WSignal _ => true | _ => false end.

(** The outcome of a call that returned false. Either it stopped at the
    gate and nothing changed; or the registry changed at one position of
    the target's sequence and nowhere else: a watcher [w'] of the requested
    kind, not active, either stands where a watcher of that kind stood
    before (reused), or is appended to the sequence the target had, the
    empty one if the target was not registered (newly appended). *)
Definition unchanged_or_unarmed (kind : Watcher → bool) (target : Z)
    (d d' : Dispatcher) : Prop :=
  (m_cleaning d = true ∧ d' = d)
  ∨ (m_cleaning d = false
     ∧ ∃ w', kind w' = true ∧ Watcher.is_active w' = false
         ∧ ((∃ ws i w, targets d !! target = Some ws ∧ ws !! i = Some w
                       ∧ kind w = true
                       ∧ targets d' = <[target := <[i := w']> ws]> (targets d))
            ∨ targets d' = <[target := found_of target d ++ [w']]> (targets d))).

(** ** Counting the calls to the callbacks *)

Definition is_apply (t : Z) (c : Call) : bool :=
  match c with OnApply t' => bool_decide (t' = t) | _ => false end.

Definition is_free (t : Z) (c : Call) : bool :=
  match c with OnFree t' => bool_decide (t' = t) | _ => false end.


Definition count_calls (f : Call → bool) (l : list Call) : nat :=
  length (filter (λ c, f c = true) l).

(** The handler invocations of a trace, in order. *)
Definition is_on_event (c : Call) : bool :=
  match c with OnEvent _ _ _ => true | _ => false end.

Definition events_of (l : list Call) : list Call :=
  filter (λ c, is_on_event c = true) l.

(** Is the target a key of the registry? As a number, for the ledgers. *)
Definition registered (t : Z) (d : Dispatcher) : nat :=
  if decide (t ∈ dom (targets d)) then 1 else 0.

(** The flags no operation changes. *)
Definition flags (d : Dispatcher) : bool * bool :=
  (m_cleaning d, on_target_present d).

(** How an operation moves the registry's keys and the trace together. *)
Inductive hook_step (d d' : Dispatcher) : Prop :=
  | hook_same :
      dom (targets d') = dom (targets d) →
      calls d' = calls d →
      hook_step d d'
  | hook_apply t :
      m_cleaning d = false →
      t ∉ dom (targets d) →
      dom (targets d') = {[t]} ∪ dom (targets d) →
      calls d' = calls d ++ (if on_target_present d then [OnApply t] else []) →
      hook_step d d'
  | hook_free t :
      t ∈ dom (targets d) →
      dom (targets d') = dom (targets d) ∖ {[t]} →
      calls d' = calls d ++ (if on_target_present d then [OnFree t] else []) →
      hook_step d d'.

(** ** Ledgers kept by the steps *)

(** With hooks: each target has as many [on_apply] as [on_free] calls,
    plus one while it is registered. *)
Definition balanced (d : Dispatcher) : Prop :=
  ∀ t, count_calls (is_apply t) (calls d)
       = (count_calls (is_free t) (calls d) + registered t d)%nat.

(** The [on_free] calls the dispatcher still owes. *)
Definition owed (t : Z) (d : Dispatcher) : nat :=
  if on_target_present d then registered t d else 0%nat.

(** A step of the cleanup scan: flags kept, no key added, and every
    [on_free] made is one no longer owed. *)
Record scan_step (d d' : Dispatcher) : Prop := mk_scan_step {
  scan_flags : flags d' = flags d;
  scan_dom : dom (targets d') ⊆ dom (targets d);
  scan_free : ∀ t,
    (count_calls (is_free t) (calls d') + owed t d'
     = count_calls (is_free t) (calls d) + owed t d)%nat }.

(** ** The lists of the cleanup scan *)

(** The two lists the scan computes. *)
Definition all_targets (d : Dispatcher) : list Z := (target_pairs d).*1.

Definition active_targets (d : Dispatcher) : list Z :=
  (filter (λ p, any_active p.2 = true) (target_pairs d)).*1.


(** ** States of a target's sequence around a delivery *)

(** The watcher with its [active] field set, parameters untouched. *)
Definition with_active (b : bool) (w : Watcher) : Watcher :=
  match w with
  | WTimer t => WTimer (mk_ev_timer b (timer_at t) (timer_repeat t))
  | WIo i => WIo (mk_ev_io b (io_fd i) (io_events i))
  | WSignal s => WSignal (mk_ev_signal b (signal_signum s))
  end.

(** All / none of the target's watchers are active. *)
Definition quiet (target : Z) (d : Dispatcher) : Prop :=
  ∀ ws, targets d !! target = Some ws →
        Forall (λ w, Watcher.is_active w = false) ws.

Definition armed (target : Z) (d : Dispatcher) : Prop :=
  ∀ ws, targets d !! target = Some ws →
        Forall (λ w, Watcher.is_active w = true) ws.

(** The state the handler leaves when it is called for an event. *)
Definition handled (on_target_event : OnTargetEvent) (target revents : Z)
    (payload : option Z) (d : Dispatcher) : Dispatcher :=
  let d1 := (disable_watching target d).2 in
  run_ops (on_target_event target revents payload d1).2
    (record_call (OnEvent target revents payload) d1).

(** ** The target an operation is called for *)

Definition op_target (o : Op) : Z :=
  match o with
  | WatchTimer t _ | WatchIo t _ _ | WatchSignal t _
  | EnableWatching t | DisableWatching t | ReleaseWatching t => t
  end.

(** The target of a [watch_*] call, none for the other operations. *)
Definition watch_target (o : Op) : option Z :=
  match o with
  | WatchTimer t _ | WatchIo t _ _ | WatchSignal t _ => Some t
  | _ => None
  end.

(** ** The invariant of the reuse rule *)

(** The kind of a watcher and the identity its [approve] closure compares:
    the descriptor, the signal number; any two timers are the same. *)
Definition kind_of (w : Watcher) : nat :=
  match w with WTimer _ => 0 | WIo _ => 1 | WSignal _ => 2 end%nat.

Definition id_of (w : Watcher) : Z :=
  match w with
  | WTimer _ => 0
  | WIo i => io_fd i
  | WSignal s => signal_signum s
  end.

(** What the scans keep true of a target's sequence: identities are at
    least -1; two watchers of one kind differ in identity, and the earlier
    of the two is bound (its identity is not -1). *)
Definition reuse_ok (ws : Watchers) : Prop :=
  (∀ i w, ws !! i = Some w → -1 ≤ id_of w)
  ∧ (∀ i j x y, (i < j)%nat → ws !! i = Some x → ws !! j = Some y →
       kind_of x = kind_of y → id_of x ≠ id_of y ∧ id_of x ≠ -1).

Definition well_formed (d : Dispatcher) : Prop :=
  ∀ t ws, targets d !! t = Some ws → reuse_ok ws.

(** A request of kind [k] for identity [r], as its closures see it. *)
Record request (k : nat) (r : Z) (fresh : Watcher) (approve : Watcher → bool)
    (start : Watcher → bool * Watcher) : Prop := mk_request {
  req_approve : ∀ w, approve w = true ↔
                     kind_of w = k ∧ (id_of w = r ∨ id_of w = -1);
  req_fresh : kind_of fresh = k;
  req_start : ∀ w, kind_of w = k →
                   kind_of (start w).2 = k
                   ∧ id_of (start w).2 = (if r <? 0 then -1 else r) }.

(** ** Vocabulary of the further properties *)

(** Does the [approve] closure of a [watch_*] call accept the watcher? *)
Definition compatible (o : Op) (w : Watcher) : bool :=
  match o with
  | WatchTimer _ _ => approve_timer w
  | WatchIo _ fileno _ => approve_io fileno w
  | WatchSignal _ signum => approve_signal signum w
  | _ => false
  end.

(** For every prefix of a trace and every target, the [on_free] calls never
    outnumber the [on_apply] calls, and these lead by one at most. *)
Definition alternating (l : list Call) : Prop :=
  ∀ l1 t, l1 `prefix_of` l →
    (count_calls (is_free t) l1 ≤ count_calls (is_apply t) l1
     ≤ count_calls (is_free t) l1 + 1)%nat.

(** With hooks configured: the ledger is balanced and the trace
    alternates. *)
Definition paired (d : Dispatcher) : Prop :=
  on_target_present d = true ∧ balanced d ∧ alternating (calls d).

(** Without hooks: the trace holds handler invocations only. *)
Definition hookless (d : Dispatcher) : Prop :=
  on_target_present d = false ∧ Forall (λ c, is_on_event c = true) (calls d).

(** The hooks of the Python binding, [bp::incref] in [on_apply] and
    [bp::decref] in [on_free], replayed on the reference count of the
    object at address [t], from the count [rc] it had before the trace. *)
Definition Py_refcnt (t : Z) (rc : Z) (l : list Call) : Z :=
  foldl (λ rc c,
           match c with
           | OnApply t' => if decide (t' = t) then rc + 1 else rc
           | OnFree t' => if decide (t' = t) then rc - 1 else rc
           | OnEvent _ _ _ => rc
           end) rc l.

(** * Properties *)

(** ** Doubles compared with zero *)

Lemma SFleb_zero_not_neg (x : double) :
  SFleb d_zero x = true → SFltb x d_zero = false.
Proof. by destruct x as [[]|[]| |[] m e]. Qed.

Lemma SFltb_zero_not_nonneg (x : double) :
  SFltb x d_zero = true → SFleb d_zero x = false.
Proof. by destruct x as [[]|[]| |[] m e]. Qed.

(** ** Watchers: starting and stopping *)

Lemma Watcher_stop_inactive (w : Watcher) :
  Watcher.is_active (Watcher.stop w) = false.
Proof. by destruct w as [[[] ? ?]|[[] ? ?]|[[] ?]]. Qed.

Lemma enable_one_active (w : Watcher) :
  Watcher.is_active (enable_one w) = true.
Proof. by destruct w as [[[] ? ?]|[[] ? ?]|[[] ?]]. Qed.

(** C9. [TimerWatcher::start(after, repeat)]: a negative [after] is stored
    as -1 and the watcher is left inactive, [start] returning false; a
    negative [repeat] is stored as 0; with [after >= 0] the watcher is armed,
    [start] returns true, and [after] is stored as given. *)
Theorem TimerWatcher_start_normalises (after repeat : double) (w : ev_timer) :
  let r := (TimerWatcher.start after repeat w).1 in
  let w' := (TimerWatcher.start after repeat w).2 in
  (SFltb after d_zero = true →
     timer_at w' = d_minus_one ∧ GenericWatcher.is_active w' = false ∧ r = false)
  ∧ (SFltb repeat d_zero = true → timer_repeat w' = d_zero)
  ∧ (SFleb d_zero after = true →
     timer_at w' = after ∧ GenericWatcher.is_active w' = true ∧ r = true).
Proof.
  cbn zeta. unfold TimerWatcher.start. split; [|split].
  - intros ->. by destruct w as [[] ? ?], (SFltb repeat d_zero).
  - intros ->. by destruct (SFltb after d_zero), (SFleb d_zero _).
  - intros Hge. rewrite (SFleb_zero_not_neg _ Hge), Hge. done.
Qed.

(** An active timer restarted with [after = -1], [repeat = -1] ends up
    inactive with the pair (-1, 0); restarted with (0, 0) it is armed. *)
Lemma TimerWatcher_start_normalises_witness :
  let w := mk_ev_timer true d_zero d_zero in
  (timer_at (TimerWatcher.start d_minus_one d_minus_one w).2 = d_minus_one
   ∧ GenericWatcher.is_active (TimerWatcher.start d_minus_one d_minus_one w).2 = false
   ∧ (TimerWatcher.start d_minus_one d_minus_one w).1 = false)
  ∧ timer_repeat (TimerWatcher.start d_minus_one d_minus_one w).2 = d_zero
  ∧ (TimerWatcher.start d_zero d_zero w).1 = true.
Proof.
  intros w.
  destruct (TimerWatcher_start_normalises d_minus_one d_minus_one w) as (Ha & Hr & _).
  destruct (TimerWatcher_start_normalises d_zero d_zero w) as (_ & _ & Hb).
  split; [apply Ha; reflexivity|].
  split; [apply Hr; reflexivity|].
  apply Hb; reflexivity.
Defined.

(** ** The common shape of the three [watch_*] methods *)

Lemma watch_timer_unfold target timeout d :
  watch_timer target timeout d =
  if negb (m_cleaning d)
  then watch_body (WTimer TimerWatcher.new) approve_timer
         (start_timer timeout timeout) target d
  else (false, d).
Proof. reflexivity. Qed.

Lemma watch_io_unfold target fileno events d :
  watch_io target fileno events d =
  if negb (m_cleaning d)
  then watch_body (WIo IoWatcher.new) (approve_io fileno)
         (start_io fileno events) target d
  else (false, d).
Proof. reflexivity. Qed.

Lemma watch_signal_unfold target signum d :
  watch_signal target signum d =
  if negb (m_cleaning d)
  then watch_body (WSignal SignalWatcher.new) (approve_signal signum)
         (start_signal signum) target d
  else (false, d).
Proof. reflexivity. Qed.

Lemma selected_lookup fresh approve found :
  extended fresh approve found !! (selected fresh approve found).1
  = Some (selected fresh approve found).2.
Proof.
  unfold extended, selected.
  destruct (list_find _ found) as [[i w]|] eqn:Hf; cbn.
  - by apply list_find_Some in Hf as (? & _).
  - rewrite lookup_app_r by done. by rewrite Nat.sub_diag.
Qed.

(** Closed form of [setup_watching] and of the shared body. *)
Lemma setup_watching_eq fresh approve target d :
  setup_watching fresh target approve d =
  ((selected fresh approve (found_of target d)).1,
   set_targets
     (<[target := extended fresh approve (found_of target d)]> (targets d))
     (applied target d)).
Proof.
  unfold setup_watching, applied, found_of, selected, extended.
  destruct (targets d !! target) as [ws|] eqn:Ht; cbn.
  - rewrite Ht; cbn.
    destruct (list_find _ ws) as [[i w]|] eqn:Hf; cbn; [|done].
    rewrite insert_id by done. by destruct d.
  - destruct (on_target_present d); cbn;
      rewrite lookup_insert_eq; cbn; by rewrite insert_insert_eq.
Qed.

Lemma watch_body_eq fresh approve start target d :
  let found := found_of target d in
  let sel := selected fresh approve found in
  watch_body fresh approve start target d =
  ((start sel.2).1,
   set_targets
     (<[target := <[sel.1 := (start sel.2).2]> (extended fresh approve found)]>
        (targets d))
     (applied target d)).
Proof.
  cbn zeta. unfold watch_body. rewrite setup_watching_eq.
  unfold call_watcher; cbn. rewrite lookup_insert_eq; cbn.
  rewrite selected_lookup. destruct (start _) as [r w']; cbn.
  by rewrite alter_insert_eq.
Qed.

Lemma targets_applied target d : targets (applied target d) = targets d.
Proof.
  unfold applied. destruct (targets d !! target); [done|].
  by destruct (on_target_present d).
Qed.

Lemma selected_approved fresh approve found :
  approve (selected fresh approve found).2 = true
  ∨ (selected fresh approve found).2 = fresh.
Proof.
  unfold selected. destruct (list_find _ found) as [[i w]|] eqn:Hf; cbn.
  - left. by apply list_find_Some in Hf as (_ & ? & _).
  - by right.
Qed.

Lemma selected_lt_extended fresh approve found :
  ((selected fresh approve found).1 < length (extended fresh approve found))%nat.
Proof. eapply lookup_lt_Some, selected_lookup. Qed.

(** What [watch_body] leaves in the registry: the target's sequence holds
    the started watcher at the selected position, and no other target is
    touched. *)
Lemma watch_body_registry fresh approve start target d :
  let sel := selected fresh approve (found_of target d) in
  let d' := (watch_body fresh approve start target d).2 in
  (∃ ws, targets d' !! target = Some ws ∧ ws !! sel.1 = Some (start sel.2).2)
  ∧ ∀ t, t ≠ target → targets d' !! t = targets d !! t.
Proof.
  cbn zeta. rewrite watch_body_eq. unfold set_targets. cbn [snd targets]. split.
  - eexists. split; [apply lookup_insert_eq|].
    apply list_lookup_insert_eq, selected_lt_extended.
  - intros t Ht. by rewrite lookup_insert_ne.
Qed.

(** ** What the ungated operations do to the registry *)

Lemma targets_release_watching target d :
  targets (release_watching target d).2 = delete target (targets d).
Proof.
  unfold release_watching. destruct (targets d !! target) eqn:Ht; cbn.
  - destruct (on_target_present d); cbn; by rewrite !delete_insert_eq.
  - symmetry. by apply delete_id.
Qed.

Lemma release_watching_gone target d :
  targets (release_watching target d).2 !! target = None.
Proof. rewrite targets_release_watching. apply lookup_delete_eq. Qed.

Lemma release_watching_result target d :
  (release_watching target d).1 = bool_decide (is_Some (targets d !! target)).
Proof. unfold release_watching. by destruct (targets d !! target). Qed.

Lemma targets_disable_watching target d t :
  targets (disable_watching target d).2 !! t
  = if decide (t = target) then (fmap Watcher.stop) <$> (targets d !! t)
    else targets d !! t.
Proof.
  unfold disable_watching. case_decide as Heq; [subst t|].
  - destruct (targets d !! target) eqn:Ht; cbn; [|by rewrite Ht].
    by rewrite lookup_insert_eq.
  - destruct (targets d !! target) eqn:Ht; cbn; [|done].
    by rewrite lookup_insert_ne.
Qed.

Lemma disable_watching_result target d :
  (disable_watching target d).1 = bool_decide (is_Some (targets d !! target)).
Proof. unfold disable_watching. by destruct (targets d !! target). Qed.

Lemma targets_enable_watching target d t :
  m_cleaning d = false →
  targets (enable_watching target d).2 !! t
  = if decide (t = target) then (fmap enable_one) <$> (targets d !! t)
    else targets d !! t.
Proof.
  intros Hc. unfold enable_watching. rewrite Hc; cbn.
  case_decide as Heq; [subst t|].
  - destruct (targets d !! target) eqn:Ht; cbn; [|by rewrite Ht].
    by rewrite lookup_insert_eq.
  - destruct (targets d !! target) eqn:Ht; cbn; [|done].
    by rewrite lookup_insert_ne.
Qed.

Lemma gated_while_cleaning o d :
  m_cleaning d = true →
  match o with
  | DisableWatching _ | ReleaseWatching _ => True
  | _ => run_op o d = (false, d)
  end.
Proof.
  intros Hc. destruct o; cbn; [..|done|done];
    unfold watch_timer, watch_io, watch_signal, enable_watching; by rewrite Hc.
Qed.

(** ** Releasing twice *)

(** C8. [release_watching] is idempotent: after [release_watching(T)] the
    target is absent from the registry, and a second [release_watching(T)]
    returns false and leaves the whole state as it is: the registry, every
    watcher, and the trace of calls, so no [on_free] is made. *)
Theorem release_watching_idempotent (target : Z) (d : Dispatcher) :
  let d1 := (release_watching target d).2 in
  targets d1 !! target = None
  ∧ release_watching target d1 = (false, d1)
  ∧ calls (release_watching target d1).2 = calls d1.
Proof.
  cbn zeta. pose proof (release_watching_gone target d) as Hgone.
  split; [done|].
  assert (Hagain : release_watching target (release_watching target d).2
                   = (false, (release_watching target d).2)).
  { unfold release_watching at 1. by rewrite Hgone. }
  by rewrite Hagain.
Qed.

(** ** The gate on [m_cleaning] *)

(** C3, as stated, fails: while [m_cleaning] is set, [disable_watching] and
    [release_watching] still succeed and change the registry. *)
Lemma mutators_while_cleaning_counterexample :
  m_cleaning scanning_example = true
  ∧ (disable_watching 1 scanning_example).1 = true
  ∧ targets (disable_watching 1 scanning_example).2 !! 1
    = Some [WTimer (mk_ev_timer false d_zero d_zero)]
  ∧ (release_watching 1 scanning_example).1 = true
  ∧ targets (release_watching 1 scanning_example).2 !! 1 = None
  ∧ calls (release_watching 1 scanning_example).2 = [OnFree 1].
Proof. by vm_compute. Qed.

(** C3, amended. While [m_cleaning] is set, [watch_timer], [watch_io],
    [watch_signal] and [enable_watching] return false and leave the state
    as it is. [disable_watching] and [release_watching] are not gated: they
    return whether the target is registered, the former stops the target's
    watchers and the latter removes its entry. *)
Theorem gated_operations_fail_while_cleaning
    (d : Dispatcher) (target : Z) (timeout : double) (fileno events signum : Z) :
  m_cleaning d = true →
  watch_timer target timeout d = (false, d)
  ∧ watch_io target fileno events d = (false, d)
  ∧ watch_signal target signum d = (false, d)
  ∧ enable_watching target d = (false, d)
  ∧ (disable_watching target d).1 = bool_decide (is_Some (targets d !! target))
  ∧ targets (disable_watching target d).2 !! target
    = (fmap Watcher.stop) <$> (targets d !! target)
  ∧ (release_watching target d).1 = bool_decide (is_Some (targets d !! target))
  ∧ targets (release_watching target d).2 = delete target (targets d).
Proof.
  intros Hc.
  split; [exact (gated_while_cleaning (WatchTimer target timeout) d Hc)|].
  split; [exact (gated_while_cleaning (WatchIo target fileno events) d Hc)|].
  split; [exact (gated_while_cleaning (WatchSignal target signum) d Hc)|].
  split; [exact (gated_while_cleaning (EnableWatching target) d Hc)|].
  split; [apply disable_watching_result|].
  split; [by rewrite targets_disable_watching, decide_True|].
  split; [apply release_watching_result|apply targets_release_watching].
Qed.

Lemma gated_operations_fail_while_cleaning_witness :
  watch_timer 1 d_zero scanning_example = (false, scanning_example)
  ∧ watch_io 1 0 Event.Read scanning_example = (false, scanning_example)
  ∧ watch_signal 1 2 scanning_example = (false, scanning_example)
  ∧ enable_watching 1 scanning_example = (false, scanning_example)
  ∧ (release_watching 1 scanning_example).1 = true.
Proof.
  destruct (gated_operations_fail_while_cleaning scanning_example 1 d_zero 0
              Event.Read 2 eq_refl) as (Ht & Hi & Hs & He & _ & _ & Hr & _).
  split; [exact Ht|]. split; [exact Hi|]. split; [exact Hs|].
  split; [exact He|]. rewrite Hr. reflexivity.
Defined.

(** ** When a [watch_*] call returns false *)

Lemma approve_io_is_io fileno w : approve_io fileno w = true → is_io w = true.
Proof. by destruct w. Qed.

Lemma approve_signal_is_signal signum w :
  approve_signal signum w = true → is_signal w = true.
Proof. by destruct w. Qed.

Lemma selected_kind fresh approve (kind : Watcher → bool) found :
  (∀ w, approve w = true → kind w = true) → kind fresh = true →
  kind (selected fresh approve found).2 = true.
Proof.
  intros Ha Hf. destruct (selected_approved fresh approve found) as [H|H].
  - by apply Ha.
  - by rewrite H.
Qed.

(** The typed [start] methods on a watcher of their kind: the result is
    the activity of the watcher, and says whether the parameters passed the
    guard in front of [start_watching]. *)
Lemma start_timer_result after repeat w :
  is_timer w = true →
  (start_timer after repeat w).1 = SFleb d_zero after
  ∧ Watcher.is_active (start_timer after repeat w).2 = SFleb d_zero after
  ∧ is_timer (start_timer after repeat w).2 = true.
Proof.
  destruct w as [t| |]; [intros _|done..]. cbn. unfold TimerWatcher.start.
  destruct (SFltb after d_zero) eqn:Hlt.
  - rewrite (SFltb_zero_not_nonneg _ Hlt). by destruct t as [[] ? ?].
  - destruct (SFleb d_zero after); by destruct t as [[] ? ?].
Qed.

Lemma start_io_result fileno events w :
  is_io w = true →
  (start_io fileno events w).1 = (0 <=? fileno) && (0 <? events)
  ∧ Watcher.is_active (start_io fileno events w).2 = (0 <=? fileno) && (0 <? events)
  ∧ is_io (start_io fileno events w).2 = true.
Proof.
  destruct w as [|i|]; [done|intros _|done]. cbn. unfold IoWatcher.start.
  destruct (Z.ltb_spec fileno 0), (Z.ltb_spec events 0); cbn;
    repeat case_match; destruct i as [[] ? ?]; cbn in *; try done; lia.
Qed.

Lemma start_signal_result signum w :
  is_signal w = true →
  (start_signal signum w).1 = (0 <=? signum)
  ∧ Watcher.is_active (start_signal signum w).2 = (0 <=? signum)
  ∧ is_signal (start_signal signum w).2 = true.
Proof.
  destruct w as [| |s]; [done..|intros _]. cbn. unfold SignalWatcher.start.
  destruct (Z.ltb_spec signum 0); cbn;
    repeat case_match; destruct s as [[] ?]; cbn in *; try done; lia.
Qed.

(** C4, as stated, fails: on a fresh dispatcher each of the three calls
    with a negative parameter returns false and yet leaves the target in
    the registry, with a watcher that is not armed. *)
Lemma failed_watch_counterexample :
  let d := Dispatcher_new false in
  targets d !! 1 = None
  ∧ (watch_timer 1 d_minus_one d).1 = false
  ∧ targets (watch_timer 1 d_minus_one d).2 !! 1
    = Some [WTimer (mk_ev_timer false d_minus_one d_zero)]
  ∧ (watch_io 1 (-3) Event.Read d).1 = false
  ∧ targets (watch_io 1 (-3) Event.Read d).2 !! 1
    = Some [WIo (mk_ev_io false (-1) Event.Read)]
  ∧ (watch_signal 1 (-2) d).1 = false
  ∧ targets (watch_signal 1 (-2) d).2 !! 1
    = Some [WSignal (mk_ev_signal false (-1))].
Proof. by vm_compute. Qed.

(** The registry after the body of a [watch_*] call: the started watcher
    stands where the first approved watcher of the target stood, or, when
    the scan approved none, at the end of the sequence the target had. *)
Lemma watch_body_shape fresh approve start target d :
  let sel := selected fresh approve (found_of target d) in
  let d' := (watch_body fresh approve start target d).2 in
  (∃ ws i w, targets d !! target = Some ws ∧ ws !! i = Some w
             ∧ sel = (i, w) ∧ approve w = true
             ∧ targets d' = <[target := <[i := (start w).2]> ws]> (targets d))
  ∨ (sel.2 = fresh
     ∧ targets d' = <[target := found_of target d ++ [(start fresh).2]]> (targets d)).
Proof.
  cbn zeta. rewrite watch_body_eq. unfold set_targets. cbn [snd targets].
  unfold selected, extended.
  destruct (list_find _ (found_of target d)) as [[i w]|] eqn:Hf; cbn [default fst snd].
  - left. apply list_find_Some in Hf as (Hi & Hw & _).
    unfold found_of in *. destruct (targets d !! target) as [ws|]; [|done].
    by exists ws, i, w.
  - right. split; [done|]. cbn.
    rewrite insert_app_r_alt by done. by rewrite Nat.sub_diag.
Qed.

(** C4, amended. When [watch_timer] / [watch_io] / [watch_signal] returns
    false, either cleanup is in progress and the state is unchanged, or the
    registry after the call is the registry before it but for one position
    of the target's sequence: there a watcher of the requested kind is left
    inactive, either in the place of a watcher of that kind the sequence
    held already (reused) or appended to the sequence (newly appended, the
    target being entered into the registry if it was not registered). The
    other watchers of the target and the entries of the other targets are
    as before. *)
Theorem failed_watch_leaves_unarmed_watcher
    (d : Dispatcher) (target : Z) (timeout : double) (fileno events signum : Z) :
  ((watch_timer target timeout d).1 = false →
     unchanged_or_unarmed is_timer target d (watch_timer target timeout d).2)
  ∧ ((watch_io target fileno events d).1 = false →
     unchanged_or_unarmed is_io target d (watch_io target fileno events d).2)
  ∧ ((watch_signal target signum d).1 = false →
     unchanged_or_unarmed is_signal target d (watch_signal target signum d).2).
Proof.
  rewrite watch_timer_unfold, watch_io_unfold, watch_signal_unfold.
  unfold unchanged_or_unarmed.
  destruct (m_cleaning d); cbn [negb]; [by repeat split; intros; left|].
  split; [|split]; intros Hr; right; (split; [done|]).
  - rewrite watch_body_eq in Hr. cbn [fst] in Hr.
    destruct (watch_body_shape (WTimer TimerWatcher.new) approve_timer
                (start_timer timeout timeout) target d)
      as [(ws & i & w & Hws & Hi & Hsel & Hw & Ht)|[Hsel Ht]].
    + rewrite Hsel in Hr. cbn [snd] in Hr.
      destruct (start_timer_result timeout timeout w Hw) as (H1 & H2 & H3).
      exists (start_timer timeout timeout w).2.
      split; [done|]. split; [congruence|]. left. by exists ws, i, w.
    + rewrite Hsel in Hr.
      destruct (start_timer_result timeout timeout (WTimer TimerWatcher.new) eq_refl)
        as (H1 & H2 & H3).
      exists (start_timer timeout timeout (WTimer TimerWatcher.new)).2.
      split; [done|]. split; [congruence|]. by right.
  - rewrite watch_body_eq in Hr. cbn [fst] in Hr.
    destruct (watch_body_shape (WIo IoWatcher.new) (approve_io fileno)
                (start_io fileno events) target d)
      as [(ws & i & w & Hws & Hi & Hsel & Hw & Ht)|[Hsel Ht]].
    + rewrite Hsel in Hr. cbn [snd] in Hr.
      pose proof (approve_io_is_io fileno w Hw) as Hk.
      destruct (start_io_result fileno events w Hk) as (H1 & H2 & H3).
      exists (start_io fileno events w).2.
      split; [done|]. split; [congruence|]. left. by exists ws, i, w.
    + rewrite Hsel in Hr.
      destruct (start_io_result fileno events (WIo IoWatcher.new) eq_refl)
        as (H1 & H2 & H3).
      exists (start_io fileno events (WIo IoWatcher.new)).2.
      split; [done|]. split; [congruence|]. by right.
  - rewrite watch_body_eq in Hr. cbn [fst] in Hr.
    destruct (watch_body_shape (WSignal SignalWatcher.new) (approve_signal signum)
                (start_signal signum) target d)
      as [(ws & i & w & Hws & Hi & Hsel & Hw & Ht)|[Hsel Ht]].
    + rewrite Hsel in Hr. cbn [snd] in Hr.
      pose proof (approve_signal_is_signal signum w Hw) as Hk.
      destruct (start_signal_result signum w Hk) as (H1 & H2 & H3).
      exists (start_signal signum w).2.
      split; [done|]. split; [congruence|]. left. by exists ws, i, w.
    + rewrite Hsel in Hr.
      destruct (start_signal_result signum (WSignal SignalWatcher.new) eq_refl)
        as (H1 & H2 & H3).
      exists (start_signal signum (WSignal SignalWatcher.new)).2.
      split; [done|]. split; [congruence|]. by right.
Qed.

Lemma failed_watch_leaves_unarmed_watcher_witness :
  let d1 := (watch_io 1 4 Event.Read
               (watch_timer 1 d_one (Dispatcher_new false)).2).2 in
  unchanged_or_unarmed is_timer 1 (Dispatcher_new false)
    (watch_timer 1 d_minus_one (Dispatcher_new false)).2
  ∧ unchanged_or_unarmed is_io 1 (Dispatcher_new false)
      (watch_io 1 (-3) Event.Read (Dispatcher_new false)).2
  ∧ unchanged_or_unarmed is_signal 1 (Dispatcher_new false)
      (watch_signal 1 (-2) (Dispatcher_new false)).2
  ∧ unchanged_or_unarmed is_timer 1 d1 (watch_timer 1 d_minus_one d1).2.
Proof.
  intros d1.
  destruct (failed_watch_leaves_unarmed_watcher (Dispatcher_new false) 1
              d_minus_one (-3) Event.Read (-2)) as (Ht & Hi & Hs).
  destruct (failed_watch_leaves_unarmed_watcher d1 1
              d_minus_one (-3) Event.Read (-2)) as (Ht1 & _ & _).
  split; [apply Ht; reflexivity|].
  split; [apply Hi; reflexivity|].
  split; [apply Hs; reflexivity|apply Ht1; reflexivity].
Defined.

(** ** Counting the calls to the callbacks *)

Lemma count_calls_app f l1 l2 :
  count_calls f (l1 ++ l2) = (count_calls f l1 + count_calls f l2)%nat.
Proof. unfold count_calls. by rewrite filter_app, length_app. Qed.

Lemma count_calls_one f c :
  count_calls f [c] = if f c then 1%nat else 0%nat.
Proof.
  unfold count_calls. rewrite filter_cons, filter_nil.
  destruct (f c); by case_decide.
Qed.

Lemma flags_applied target d : flags (applied target d) = flags d.
Proof.
  unfold applied. destruct (targets d !! target); [done|].
  by destruct (on_target_present d).
Qed.

Lemma watch_body_hook_step fresh approve start target d :
  m_cleaning d = false →
  flags (watch_body fresh approve start target d).2 = flags d
  ∧ hook_step d (watch_body fresh approve start target d).2.
Proof.
  intros Hc. rewrite watch_body_eq. unfold set_targets. cbn [snd]. split.
  - rewrite <- (flags_applied target d). done.
  - unfold applied. destruct (targets d !! target) as [ws|] eqn:Ht.
    + apply hook_same; [|done]. cbn. apply dom_insert_lookup_L. by exists ws.
    + apply (hook_apply _ _ target); [done|by apply not_elem_of_dom|..].
      * cbn. by rewrite dom_insert_L.
      * destruct (on_target_present d); cbn; by rewrite ?app_nil_r.
Qed.

Lemma enable_watching_hook_step target d :
  flags (enable_watching target d).2 = flags d
  ∧ hook_step d (enable_watching target d).2.
Proof.
  unfold enable_watching. destruct (m_cleaning d) eqn:Hc; cbn;
    [by split; [|apply hook_same]|].
  destruct (targets d !! target) as [ws|] eqn:Ht; cbn;
    [|by split; [|apply hook_same]].
  split; [unfold flags; cbn; by rewrite Hc|].
  apply hook_same; [|done]. apply dom_insert_lookup_L. by exists ws.
Qed.

Lemma disable_watching_hook_step target d :
  flags (disable_watching target d).2 = flags d
  ∧ hook_step d (disable_watching target d).2.
Proof.
  unfold disable_watching.
  destruct (targets d !! target) as [ws|] eqn:Ht; cbn;
    [|by split; [|apply hook_same]].
  split; [done|]. apply hook_same; [|done]. apply dom_insert_lookup_L. by exists ws.
Qed.

Lemma release_watching_hook_step target d :
  flags (release_watching target d).2 = flags d
  ∧ hook_step d (release_watching target d).2.
Proof.
  unfold release_watching.
  destruct (targets d !! target) as [ws|] eqn:Ht; cbn;
    [|by split; [|apply hook_same]].
  split; [by destruct (on_target_present d)|].
  apply (hook_free _ _ target).
  - apply elem_of_dom. by exists ws.
  - destruct (on_target_present d); cbn;
      rewrite !delete_insert_eq; apply dom_delete_L.
  - destruct (on_target_present d); cbn; by rewrite ?app_nil_r.
Qed.

Lemma run_op_hook_step o d :
  flags (run_op o d).2 = flags d ∧ hook_step d (run_op o d).2.
Proof.
  destruct o as [t a|t f e|t s|t|t|t]; cbn [run_op].
  - rewrite watch_timer_unfold. destruct (m_cleaning d) eqn:Hc; cbn [negb].
    + by split; [|apply hook_same].
    + by apply watch_body_hook_step.
  - rewrite watch_io_unfold. destruct (m_cleaning d) eqn:Hc; cbn [negb].
    + by split; [|apply hook_same].
    + by apply watch_body_hook_step.
  - rewrite watch_signal_unfold. destruct (m_cleaning d) eqn:Hc; cbn [negb].
    + by split; [|apply hook_same].
    + by apply watch_body_hook_step.
  - apply enable_watching_hook_step.
  - apply disable_watching_hook_step.
  - apply release_watching_hook_step.
Qed.

(** ** Ledgers kept by the steps *)

Lemma flags_hooks d d' :
  flags d' = flags d → on_target_present d' = on_target_present d.
Proof. by intros [= _ ?]. Qed.

Lemma flags_cleaning d d' : flags d' = flags d → m_cleaning d' = m_cleaning d.
Proof. by intros [= ? _]. Qed.

Lemma registered_same t d d' :
  dom (targets d') = dom (targets d) → registered t d' = registered t d.
Proof. unfold registered. by intros ->. Qed.

Lemma hook_step_balanced d d' :
  on_target_present d = true → hook_step d d' → balanced d → balanced d'.
Proof.
  intros Hp [Hdom Hcalls|t0 _ Hnew Hdom Hcalls|t0 Hold Hdom Hcalls] Hb t;
    specialize (Hb t); rewrite Hcalls; unfold registered in *; rewrite Hdom.
  - done.
  - rewrite Hp, !count_calls_app, !count_calls_one. cbn.
    repeat case_decide; repeat case_bool_decide; try lia; set_solver.
  - rewrite Hp, !count_calls_app, !count_calls_one. cbn.
    repeat case_decide; repeat case_bool_decide; try lia; set_solver.
Qed.

Lemma hook_step_scan d d' :
  m_cleaning d = true → flags d' = flags d → hook_step d d' → scan_step d d'.
Proof.
  intros Hc Hf [Hdom Hcalls|t0 Hn _ _ _|t0 Hold Hdom Hcalls]; [..|congruence|].
  - split; [done|by rewrite Hdom|]. intros t. unfold owed.
    by rewrite Hcalls, (flags_hooks _ _ Hf), (registered_same _ _ _ Hdom).
  - split; [done|set_solver|]. intros t. unfold owed, registered.
    rewrite Hcalls, (flags_hooks _ _ Hf), Hdom, count_calls_app.
    destruct (on_target_present d); rewrite ?count_calls_one; cbn;
      repeat case_decide; repeat case_bool_decide; try lia; set_solver.
Qed.

Lemma hook_step_events d d' :
  hook_step d d' → events_of (calls d') = events_of (calls d).
Proof.
  unfold events_of.
  intros [_ ->|t0 _ _ _ ->|t0 _ _ ->]; [done|..];
    rewrite filter_app; destruct (on_target_present d); cbn;
    by rewrite ?app_nil_r.
Qed.

Lemma scan_step_refl d : scan_step d d.
Proof. by split. Qed.

Lemma scan_step_trans d1 d2 d3 :
  scan_step d1 d2 → scan_step d2 d3 → scan_step d1 d3.
Proof.
  intros [F1 D1 C1] [F2 D2 C2]. split.
  - congruence.
  - set_solver.
  - intros t. by rewrite C2, C1.
Qed.

Lemma run_ops_snoc ops o d :
  run_ops (ops ++ [o]) d = (run_op o (run_ops ops d)).2.
Proof. unfold run_ops. by rewrite foldl_app. Qed.

Lemma run_ops_flags ops d : flags (run_ops ops d) = flags d.
Proof.
  induction ops as [|o ops IH] using rev_ind; [done|].
  rewrite run_ops_snoc. by destruct (run_op_hook_step o (run_ops ops d)) as [-> _].
Qed.

Lemma run_ops_scan ops d :
  m_cleaning d = true →
  scan_step d (run_ops ops d)
  ∧ events_of (calls (run_ops ops d)) = events_of (calls d).
Proof.
  intros Hc. induction ops as [|o ops [IHs IHe]] using rev_ind.
  - split; [apply scan_step_refl|done].
  - rewrite run_ops_snoc.
    destruct (run_op_hook_step o (run_ops ops d)) as [Hf Hs]. split.
    + eapply scan_step_trans; [done|]. apply hook_step_scan; [|done..].
      by rewrite (flags_cleaning _ _ (run_ops_flags ops d)).
    + by rewrite (hook_step_events _ _ Hs).
Qed.

Lemma run_ops_balanced ops d :
  on_target_present d = true → balanced d → balanced (run_ops ops d).
Proof.
  intros Hp Hb. induction ops as [|o ops IH] using rev_ind; [done|].
  rewrite run_ops_snoc.
  destruct (run_op_hook_step o (run_ops ops d)) as [Hf Hs].
  eapply hook_step_balanced; [|done..].
  by rewrite (flags_hooks _ _ (run_ops_flags ops d)).
Qed.

(** ** The delivery path and the cleanup scan *)

Lemma target_pairs_perm d : target_pairs d ≡ₚ map_to_list (targets d).
Proof. apply merge_sort_Permutation. Qed.

Lemma all_targets_NoDup d : NoDup (all_targets d).
Proof.
  unfold all_targets. rewrite target_pairs_perm. apply NoDup_fst_map_to_list.
Qed.

Lemma elem_of_all_targets t d : t ∈ all_targets d ↔ t ∈ dom (targets d).
Proof.
  unfold all_targets. rewrite target_pairs_perm, elem_of_dom, list_elem_of_fmap.
  split.
  - intros ([t' ws] & -> & Hin). apply elem_of_map_to_list in Hin. by exists ws.
  - intros [ws Hws]. exists (t, ws). split; [done|]. by apply elem_of_map_to_list.
Qed.



Lemma events_of_app l1 l2 : events_of (l1 ++ l2) = events_of l1 ++ events_of l2.
Proof. apply filter_app. Qed.

Lemma record_event_scan t r p d :
  scan_step d (record_call (OnEvent t r p) d).
Proof.
  split; [done..|]. intros t'.
  change (owed t' (record_call (OnEvent t r p) d)) with (owed t' d).
  change (calls (record_call (OnEvent t r p) d)) with (calls d ++ [OnEvent t r p]).
  rewrite count_calls_app, count_calls_one. cbn [is_free]. lia.
Qed.

(** One delivery while the scan is on. *)
Lemma handler_scan h t r p d :
  m_cleaning d = true →
  scan_step d (handler h t r p d)
  ∧ events_of (calls (handler h t r p d)) = events_of (calls d) ++ [OnEvent t r p].
Proof.
  intros Hc. unfold handler.
  destruct (disable_watching_hook_step t d) as [Hf1 Hs1].
  set (d1 := (disable_watching t d).2) in *.
  assert (Hc1 : m_cleaning d1 = true) by by rewrite (flags_cleaning _ _ Hf1).
  destruct (h t r p d1) as [b ops].
  set (d2 := record_call (OnEvent t r p) d1).
  destruct (run_ops_scan ops d2 Hc1) as [Hs3 He3].
  set (d3 := run_ops ops d2) in *.
  assert (Hs : scan_step d d3).
  { eapply scan_step_trans; [by apply hook_step_scan|].
    eapply scan_step_trans; [apply record_event_scan|done]. }
  assert (He : events_of (calls d3) = events_of (calls d) ++ [OnEvent t r p]).
  { rewrite He3.
    change (calls d2) with (calls d1 ++ [OnEvent t r p]).
    by rewrite events_of_app, (hook_step_events _ _ Hs1). }
  destruct b; [|done].
  destruct (enable_watching_hook_step t d3) as [Hf4 Hs4]. split.
  - eapply scan_step_trans; [done|]. apply hook_step_scan; [|done..].
    rewrite (flags_cleaning _ _ (scan_flags _ _ Hs)). done.
  - by rewrite (hook_step_events _ _ Hs4).
Qed.

Lemma handlers_scan h r p ts d :
  m_cleaning d = true →
  let d' := foldl (λ d t, handler h t r p d) d ts in
  scan_step d d'
  ∧ events_of (calls d') = events_of (calls d) ++ ((λ t, OnEvent t r p) <$> ts).
Proof.
  revert d. induction ts as [|t ts IH]; intros d Hc; cbn.
  - split; [apply scan_step_refl|by rewrite app_nil_r].
  - destruct (handler_scan h t r p d Hc) as [Hs He].
    destruct (IH (handler h t r p d)) as [Hs' He'].
    { by rewrite (flags_cleaning _ _ (scan_flags _ _ Hs)). }
    split; [by eapply scan_step_trans|].
    by rewrite He', He, <- app_assoc.
Qed.

Lemma releases_scan ts d :
  m_cleaning d = true →
  let d' := foldl (λ d t, (release_watching t d).2) d ts in
  scan_step d d'
  ∧ events_of (calls d') = events_of (calls d)
  ∧ ∀ t, t ∈ ts → t ∉ dom (targets d').
Proof.
  revert d. induction ts as [|t ts IH]; intros d Hc; cbn.
  - split; [apply scan_step_refl|]. split; [done|]. by intros t ?%elem_of_nil.
  - destruct (release_watching_hook_step t d) as [Hf Hs].
    pose proof (release_watching_gone t d) as Hgone.
    destruct (IH (release_watching t d).2) as (Hs' & He' & Hout).
    { by rewrite (flags_cleaning _ _ Hf). }
    split; [eapply scan_step_trans; [by apply hook_step_scan|done]|].
    split; [by rewrite He', (hook_step_events _ _ Hs)|].
    intros t' [->|Hin]%elem_of_cons; [|by apply Hout].
    intros Hin. apply (scan_dom _ _ Hs') in Hin.
    apply elem_of_dom in Hin as [ws Hws]. cbn in Hgone. congruence.
Qed.

Lemma registered_empty t d : targets d = ∅ → registered t d = 0%nat.
Proof. unfold registered. intros ->. by rewrite dom_empty_L, decide_False. Qed.

(** What a cleanup scan does, whatever the handler does in its turn. *)
Lemma cleanup_scan h d :
  let d' := cleanup h d in
  targets d' = ∅
  ∧ m_cleaning d' = false
  ∧ on_target_present d' = on_target_present d
  ∧ events_of (calls d')
    = events_of (calls d)
      ++ ((λ t, OnEvent t Event.Cleanup None) <$> active_targets d)
  ∧ ∀ t, count_calls (is_free t) (calls d')
         = (count_calls (is_free t) (calls d) + owed t d)%nat.
Proof.
  cbn zeta. unfold cleanup.
  set (d0 := set_cleaning true d).
  change ((filter _ (target_pairs d0)).*1) with (active_targets d).
  change ((target_pairs d0).*1) with (all_targets d).
  destruct (handlers_scan h Event.Cleanup None (active_targets d) d0 eq_refl)
    as [Hs1 He1].
  set (d1 := foldl _ d0 (active_targets d)) in *.
  assert (Hc1 : m_cleaning d1 = true)
    by by rewrite (flags_cleaning _ _ (scan_flags _ _ Hs1)).
  destruct (releases_scan (all_targets d) d1 Hc1) as (Hs2 & He2 & Hout).
  set (d2 := foldl _ d1 (all_targets d)) in *.
  pose proof (scan_step_trans _ _ _ Hs1 Hs2) as Hs.
  assert (Hempty : targets d2 = ∅).
  { apply dom_empty_inv_L, set_eq. intros t. split; [|by intros ?%elem_of_empty].
    intros Hin. exfalso. apply (Hout t); [|done].
    apply elem_of_all_targets. by apply (scan_dom _ _ Hs) in Hin. }
  unfold set_cleaning at 1 2 3 4 5.
  cbn [targets m_cleaning on_target_present calls].
  split; [done|]. split; [done|].
  split; [by rewrite (flags_hooks _ _ (scan_flags _ _ Hs))|].
  split; [by rewrite He2, He1|].
  intros t. pose proof (scan_free _ _ Hs t) as Hfree.
  unfold owed in Hfree at 1. rewrite (registered_empty _ _ Hempty) in Hfree.
  destruct (on_target_present d2); by rewrite Nat.add_0_r in Hfree.
Qed.




Lemma cleanup_empty h d :
  targets d = ∅ → cleanup h d = set_cleaning false d.
Proof.
  intros Hempty. unfold cleanup, target_pairs.
  change (targets (set_cleaning true d)) with (targets d).
  rewrite Hempty, map_to_list_empty. reflexivity.
Qed.

(** C10. [cleanup] is idempotent: after a scan the registry is empty and
    [m_cleaning] is false, and a scan that follows at once, such as the one
    of the destructor, returns the very same state: no handler invocation
    and no [on_free] is added to the trace. *)
Theorem cleanup_idempotent (on_target_event : OnTargetEvent) (d : Dispatcher) :
  let d1 := cleanup on_target_event d in
  targets d1 = ∅
  ∧ m_cleaning d1 = false
  ∧ cleanup on_target_event d1 = d1
  ∧ destroy on_target_event d1 = d1.
Proof.
  cbn zeta.
  destruct (cleanup_scan on_target_event d) as (Hempty & Hc & _).
  assert (Hagain : cleanup on_target_event (cleanup on_target_event d)
                   = cleanup on_target_event d).
  { rewrite (cleanup_empty _ _ Hempty).
    destruct (cleanup on_target_event d); cbn in *. by subst. }
  done.
Qed.

(** ** Delivery: stop all, call the handler, re-arm on true *)

Lemma Watcher_stop_eq w : Watcher.stop w = with_active false w.
Proof. by destruct w as [[[] ? ?]|[[] ? ?]|[[] ?]]. Qed.

Lemma enable_one_stopped w : enable_one (with_active false w) = with_active true w.
Proof. by destruct w as [[? ? ?]|[? ? ?]|[? ?]]. Qed.

Lemma with_active_is_active b w : Watcher.is_active (with_active b w) = b.
Proof. by destruct w. Qed.

Lemma disable_watching_quiet target d : quiet target (disable_watching target d).2.
Proof.
  intros ws. rewrite targets_disable_watching, decide_True by done.
  destruct (targets d !! target) as [ws0|]; [|done]. intros [= <-].
  apply Forall_fmap, Forall_true. intros w. apply Watcher_stop_inactive.
Qed.

Lemma run_op_quiet o target d :
  m_cleaning d = true → quiet target d → quiet target (run_op o d).2.
Proof.
  intros Hc Hq. pose proof (gated_while_cleaning o d Hc) as Hg.
  destruct o as [t a|t f e|t s|t|t|t]; try (by rewrite Hg); cbn [run_op].
  - destruct (decide (t = target)) as [->|Hne].
    + apply disable_watching_quiet.
    + intros ws. rewrite targets_disable_watching, decide_False by done.
      apply Hq.
  - intros ws. rewrite targets_release_watching.
    destruct (decide (t = target)) as [->|Hne].
    + by rewrite lookup_delete_eq.
    + rewrite lookup_delete_ne by done. apply Hq.
Qed.

Lemma run_ops_quiet ops target d :
  m_cleaning d = true → quiet target d → quiet target (run_ops ops d).
Proof.
  intros Hc Hq. induction ops as [|o ops IH] using rev_ind; [done|].
  rewrite run_ops_snoc. apply run_op_quiet; [|done].
  by rewrite (flags_cleaning _ _ (run_ops_flags ops d)).
Qed.

Lemma enable_watching_armed target d :
  m_cleaning d = false → armed target (enable_watching target d).2.
Proof.
  intros Hc ws. rewrite targets_enable_watching, decide_True by done.
  destruct (targets d !! target) as [ws0|]; [|done]. intros [= <-].
  apply Forall_fmap, Forall_true. intros w. apply enable_one_active.
Qed.

Lemma handler_eq h t r p d :
  handler h t r p d =
  if (h t r p (disable_watching t d).2).1
  then (enable_watching t (handled h t r p d)).2
  else handled h t r p d.
Proof. unfold handler, handled. by destruct (h t r p _) as [[] ops]. Qed.

Lemma handled_flags h t r p d : flags (handled h t r p d) = flags d.
Proof.
  unfold handled. rewrite run_ops_flags.
  by destruct (disable_watching_hook_step t d) as [<- _].
Qed.

(** C6. While the scan is on, the value the handler returns for a
    [Cleanup] event does not lead to any re-arming: the delivery ends in
    the state the handler left, also when it returned true; none of the
    target's watchers is active then; and after any cleanup scan the target
    is out of the registry. *)
Theorem cleanup_event_never_rearms
    (on_target_event : OnTargetEvent) (d : Dispatcher) (target : Z)
    (payload : option Z) :
  m_cleaning d = true →
  handler on_target_event target Event.Cleanup payload d
  = handled on_target_event target Event.Cleanup payload d
  ∧ quiet target (handler on_target_event target Event.Cleanup payload d)
  ∧ ∀ d0, targets (cleanup on_target_event d0) !! target = None.
Proof.
  intros Hc.
  assert (Heq : handler on_target_event target Event.Cleanup payload d
                = handled on_target_event target Event.Cleanup payload d).
  { rewrite handler_eq. destruct (on_target_event _ _ _ _).1; [|done].
    unfold enable_watching.
    by rewrite (flags_cleaning _ _ (handled_flags _ _ _ _ d)), Hc. }
  split; [done|]. split.
  - rewrite Heq. unfold handled. apply run_ops_quiet.
    + change (m_cleaning (disable_watching target d).2 = true).
      by rewrite (flags_cleaning _ _ (proj1 (disable_watching_hook_step target d))).
    + apply (disable_watching_quiet target d).
  - intros d0. destruct (cleanup_scan on_target_event d0) as (-> & _).
    apply lookup_empty.
Qed.

(** A handler that answers true to everything, and a scan in progress over
    a target with an armed timer: the timer is stopped and stays so. *)
Lemma cleanup_event_never_rearms_witness :
  let h : OnTargetEvent := λ _ _ _ _, (true, []) in
  targets (handler h 1 Event.Cleanup None scanning_example) !! 1
  = Some [WTimer (mk_ev_timer false d_zero d_zero)]
  ∧ quiet 1 (handler h 1 Event.Cleanup None scanning_example).
Proof.
  intros h.
  destruct (cleanup_event_never_rearms h scanning_example 1 None eq_refl)
    as (Heq & Hq & _).
  split; [rewrite Heq; reflexivity|exact Hq].
Defined.

(** ** Runs of the dispatcher *)

Lemma handler_flags h t r p d : flags (handler h t r p d) = flags d.
Proof.
  rewrite handler_eq. destruct (h t r p _).1; [|apply handled_flags].
  destruct (enable_watching_hook_step t (handled h t r p d)) as [-> _].
  apply handled_flags.
Qed.

Lemma fire_flags h t i r d : flags (fire h t i r d) = flags d.
Proof.
  unfold fire. destruct (_ ≫= _) as [w|]; [|done].
  destruct (Watcher.is_active w); [apply handler_flags|done].
Qed.

Lemma step_not_cleaning h a d :
  m_cleaning d = false → m_cleaning (step h a d) = false.
Proof.
  intros Hc. destruct a as [o|t i r|]; cbn [step].
  - by rewrite (flags_cleaning _ _ (proj1 (run_op_hook_step o d))).
  - by rewrite (flags_cleaning _ _ (fire_flags h t i r d)).
  - by destruct (cleanup_scan h d) as (_ & ? & _).
Qed.

Lemma step_hooks h a d :
  on_target_present (step h a d) = on_target_present d.
Proof.
  destruct a as [o|t i r|]; cbn [step].
  - by rewrite (flags_hooks _ _ (proj1 (run_op_hook_step o d))).
  - by rewrite (flags_hooks _ _ (fire_flags h t i r d)).
  - by destruct (cleanup_scan h d) as (_ & _ & ? & _).
Qed.

Lemma run_snoc h acts a d : run h (acts ++ [a]) d = step h a (run h acts d).
Proof. unfold run. by rewrite foldl_app. Qed.

(** Between two actions of a run the scan is never in progress. *)
Lemma run_not_cleaning h acts hooks :
  m_cleaning (run h acts (Dispatcher_new hooks)) = false.
Proof.
  induction acts as [|a acts IH] using rev_ind; [done|].
  rewrite run_snoc. by apply step_not_cleaning.
Qed.

Lemma run_hooks h acts hooks :
  on_target_present (run h acts (Dispatcher_new hooks)) = hooks.
Proof.
  induction acts as [|a acts IH] using rev_ind; [done|].
  by rewrite run_snoc, step_hooks.
Qed.

(** An operation called for another target leaves a target's sequence. *)
Lemma run_op_other o t d :
  op_target o ≠ t → targets (run_op o d).2 !! t = targets d !! t.
Proof.
  intros Hne. destruct (m_cleaning d) eqn:Hc.
  - pose proof (gated_while_cleaning o d Hc) as Hg.
    destruct o as [t' a|t' f e|t' s|t'|t'|t']; try (by rewrite Hg); cbn in *.
    + by rewrite targets_disable_watching, decide_False.
    + by rewrite targets_release_watching, lookup_delete_ne.
  - destruct o as [t' a|t' f e|t' s|t'|t'|t']; cbn in *.
    + rewrite watch_timer_unfold, Hc. cbn [negb].
      by apply watch_body_registry.
    + rewrite watch_io_unfold, Hc. cbn [negb]. by apply watch_body_registry.
    + rewrite watch_signal_unfold, Hc. cbn [negb]. by apply watch_body_registry.
    + by rewrite targets_enable_watching, decide_False.
    + by rewrite targets_disable_watching, decide_False.
    + by rewrite targets_release_watching, lookup_delete_ne.
Qed.

Lemma run_ops_other ops t d :
  Forall (λ o, op_target o ≠ t) ops →
  targets (run_ops ops d) !! t = targets d !! t.
Proof.
  induction ops as [|o ops IH] using rev_ind; [done|].
  intros [Hops Ho]%Forall_app.
  rewrite run_ops_snoc, run_op_other by exact (proj1 (Forall_singleton _ _) Ho).
  by apply IH.
Qed.

(** C1. For an event the loop delivers to a registered target, in any state
    a run of the dispatcher reaches: the handler is called on a state in
    which all the target's watchers are stopped (the whole sequence, with
    every [active] flag cleared); if the handler returns true, all the
    watchers of the target are active when the delivery ends; and if the
    handler itself made no call to the dispatcher for this target, the
    target's sequence is the one from before the event with every watcher
    active when it returned true, and with every watcher inactive, yet
    still registered, when it returned false. *)
Theorem delivery_stops_then_rearms
    (on_target_event : OnTargetEvent) (hooks : bool) (acts : list Action)
    (target revents : Z) (payload : option Z) (ws : Watchers) :
  let d := run on_target_event acts (Dispatcher_new hooks) in
  let d1 := (disable_watching target d).2 in
  let b := (on_target_event target revents payload d1).1 in
  let ops := (on_target_event target revents payload d1).2 in
  targets d !! target = Some ws →
  targets d1 !! target = Some (with_active false <$> ws)
  ∧ quiet target d1
  ∧ (b = true → armed target (handler on_target_event target revents payload d))
  ∧ (Forall (λ o, op_target o ≠ target) ops →
     targets (handler on_target_event target revents payload d) !! target
     = Some (with_active b <$> ws)).
Proof.
  cbn zeta. intros Hws.
  pose proof (run_not_cleaning on_target_event acts hooks) as Hc.
  set (d := run on_target_event acts (Dispatcher_new hooks)) in *.
  assert (Hd1 : targets (disable_watching target d).2 !! target
                = Some (with_active false <$> ws)).
  { rewrite targets_disable_watching, decide_True, Hws by done. cbn. f_equal.
    apply list_fmap_ext. intros _ w _. apply Watcher_stop_eq. }
  assert (Hch : m_cleaning (handled on_target_event target revents payload d) = false).
  { by rewrite (flags_cleaning _ _ (handled_flags _ _ _ _ d)). }
  split; [done|]. split; [apply disable_watching_quiet|]. split.
  - intros Hb. rewrite handler_eq, Hb. by apply enable_watching_armed.
  - intros Hops. rewrite handler_eq.
    assert (Hh : targets (handled on_target_event target revents payload d) !! target
                 = Some (with_active false <$> ws)).
    { unfold handled. by rewrite run_ops_other. }
    destruct (on_target_event _ _ _ _).1; [|done].
    rewrite targets_enable_watching, decide_True, Hh by done. cbn. f_equal.
    rewrite <- list_fmap_compose. apply list_fmap_ext.
    intros _ w _. apply enable_one_stopped.
Qed.

(** Target 1 holds a timer and an I/O watcher on descriptor 4; a handler
    that touches nothing answers true to timer events and false to the
    others. After a timer event both watchers are armed, and after a read
    event both are stopped and still there. *)
Lemma delivery_stops_then_rearms_witness :
  let h : OnTargetEvent :=
    λ _ revents _ _, (bool_decide (revents = Event.Timer), []) in
  let acts := [Invoke (WatchTimer 1 d_zero); Invoke (WatchIo 1 4 Event.Read)] in
  let d := run h acts (Dispatcher_new false) in
  targets (handler h 1 Event.Timer None d) !! 1
  = Some [WTimer (mk_ev_timer true d_zero d_zero); WIo (mk_ev_io true 4 Event.Read)]
  ∧ armed 1 (handler h 1 Event.Timer None d)
  ∧ targets (handler h 1 Event.Read (Some 4) d) !! 1
    = Some [WTimer (mk_ev_timer false d_zero d_zero); WIo (mk_ev_io false 4 Event.Read)].
Proof.
  intros h acts d.
  destruct (delivery_stops_then_rearms h false acts 1 Event.Timer None
              [WTimer (mk_ev_timer true d_zero d_zero); WIo (mk_ev_io true 4 Event.Read)]
              eq_refl) as (_ & _ & Ha & Ht).
  destruct (delivery_stops_then_rearms h false acts 1 Event.Read (Some 4)
              [WTimer (mk_ev_timer true d_zero d_zero); WIo (mk_ev_io true 4 Event.Read)]
              eq_refl) as (_ & _ & _ & Hr).
  split; [exact (Ht (Forall_nil_2 _))|].
  split; [exact (Ha eq_refl)|exact (Hr (Forall_nil_2 _))].
Defined.

(** ** The apply/free hooks *)

Lemma record_event_balanced t r p d :
  balanced d → balanced (record_call (OnEvent t r p) d).
Proof.
  intros Hb t'. specialize (Hb t').
  change (calls (record_call (OnEvent t r p) d)) with (calls d ++ [OnEvent t r p]).
  change (registered t' (record_call (OnEvent t r p) d)) with (registered t' d).
  rewrite !count_calls_app, !count_calls_one. cbn [is_apply is_free]. lia.
Qed.

Lemma handler_balanced h t r p d :
  on_target_present d = true → balanced d → balanced (handler h t r p d).
Proof.
  intros Hp Hb.
  assert (Hh : balanced (handled h t r p d)).
  { unfold handled.
    destruct (disable_watching_hook_step t d) as [Hf Hs].
    apply run_ops_balanced; [by rewrite <- (flags_hooks _ _ Hf) in Hp|].
    apply record_event_balanced. by eapply hook_step_balanced. }
  rewrite handler_eq. destruct (h t r p _).1; [|done].
  destruct (enable_watching_hook_step t (handled h t r p d)) as [Hf Hs].
  eapply hook_step_balanced; [|done..].
  by rewrite (flags_hooks _ _ (handled_flags h t r p d)).
Qed.

Lemma handlers_balanced h r p ts d :
  on_target_present d = true → balanced d →
  balanced (foldl (λ d t, handler h t r p d) d ts).
Proof.
  revert d. induction ts as [|t ts IH]; intros d Hp Hb; [done|]. cbn.
  apply IH; [|by apply handler_balanced].
  by rewrite (flags_hooks _ _ (handler_flags h t r p d)).
Qed.

Lemma releases_balanced ts d :
  on_target_present d = true → balanced d →
  balanced (foldl (λ d t, (release_watching t d).2) d ts).
Proof.
  revert d. induction ts as [|t ts IH]; intros d Hp Hb; [done|]. cbn.
  destruct (release_watching_hook_step t d) as [Hf Hs].
  apply IH; [by rewrite (flags_hooks _ _ Hf)|by eapply hook_step_balanced].
Qed.

Lemma handlers_flags h r p ts d :
  flags (foldl (λ d t, handler h t r p d) d ts) = flags d.
Proof.
  revert d. induction ts as [|t ts IH]; intros d; [done|]. cbn.
  by rewrite IH, handler_flags.
Qed.

Lemma cleanup_balanced h d :
  on_target_present d = true → balanced d → balanced (cleanup h d).
Proof.
  intros Hp Hb. unfold cleanup.
  set (d0 := set_cleaning true d).
  set (d1 := foldl _ d0 _).
  assert (Hb1 : balanced d1) by by apply handlers_balanced.
  assert (Hp1 : on_target_present d1 = true).
  { unfold d1. by rewrite (flags_hooks _ _ (handlers_flags _ _ _ _ d0)). }
  exact (releases_balanced _ d1 Hp1 Hb1).
Qed.

Lemma step_balanced h a d :
  on_target_present d = true → balanced d → balanced (step h a d).
Proof.
  intros Hp Hb. destruct a as [o|t i r|]; cbn [step].
  - destruct (run_op_hook_step o d) as [_ Hs]. by eapply hook_step_balanced.
  - unfold fire. destruct (_ ≫= _) as [w|]; [|done].
    destruct (Watcher.is_active w); [by apply handler_balanced|done].
  - by apply cleanup_balanced.
Qed.

Lemma run_balanced h acts :
  balanced (run h acts (Dispatcher_new true)).
Proof.
  induction acts as [|a acts IH] using rev_ind; [by intros t|].
  rewrite run_snoc. apply step_balanced; [apply run_hooks|done].
Qed.

Lemma watch_op_unfold o t d :
  watch_target o = Some t →
  ∃ fresh approve start,
    run_op o d = if negb (m_cleaning d)
                 then watch_body fresh approve start t d else (false, d).
Proof.
  destruct o; intros [= <-]; cbn [run_op]; by eexists _, _, _.
Qed.

(** C7. With the hooks configured, [on_apply(T)] is called once, when a
    [watch_*] call enters [T] into the registry (whether or not the watcher
    could be armed), and not when [T] is registered already; [on_free(T)] is
    called once, when [release_watching] removes the entry of [T], and not
    when [T] is absent. Hence after any run, each target has as many
    [on_apply] as [on_free] calls, plus one while it is registered. *)
Theorem hooks_once_per_registration (on_target_event : OnTargetEvent) :
  (∀ acts t,
     let d := run on_target_event acts (Dispatcher_new true) in
     count_calls (is_apply t) (calls d)
     = (count_calls (is_free t) (calls d) + registered t d)%nat)
  ∧ (∀ d o t,
       on_target_present d = true → m_cleaning d = false →
       watch_target o = Some t → targets d !! t = None →
       calls (run_op o d).2 = calls d ++ [OnApply t]
       ∧ is_Some (targets (run_op o d).2 !! t))
  ∧ (∀ d o t,
       watch_target o = Some t → is_Some (targets d !! t) →
       calls (run_op o d).2 = calls d)
  ∧ (∀ d t,
       on_target_present d = true → is_Some (targets d !! t) →
       calls (release_watching t d).2 = calls d ++ [OnFree t]
       ∧ targets (release_watching t d).2 !! t = None)
  ∧ (∀ d t,
       targets d !! t = None → calls (release_watching t d).2 = calls d).
Proof.
  split; [intros acts t; apply run_balanced|].
  split; [|split; [|split]].
  - intros d o t Hp Hc Ho Ht.
    destruct (watch_op_unfold o t d Ho) as (fresh & approve & start & ->).
    rewrite Hc; cbn [negb]. rewrite watch_body_eq. unfold set_targets, applied.
    cbn [snd calls targets]. rewrite Ht, Hp. split; [done|].
    rewrite lookup_insert_eq. by eexists.
  - intros d o t Ho [ws Ht].
    destruct (watch_op_unfold o t d Ho) as (fresh & approve & start & ->).
    destruct (m_cleaning d); cbn [negb]; [done|].
    rewrite watch_body_eq. unfold set_targets, applied. cbn [snd calls].
    by rewrite Ht.
  - intros d t Hp [ws Ht]. split; [|apply release_watching_gone].
    unfold release_watching. rewrite Ht. cbn. by rewrite Hp.
  - intros d t Ht. unfold release_watching. by rewrite Ht.
Qed.

(** On a dispatcher with hooks: the first [watch_timer] for target 7, here
    with a timeout that cannot be armed, calls [on_apply]; a [watch_io] for
    the same target does not; [release_watching] calls [on_free]. *)
Lemma hooks_once_per_registration_witness :
  let d0 := Dispatcher_new true in
  let d1 := (run_op (WatchTimer 7 d_minus_one) d0).2 in
  let d2 := (run_op (WatchIo 7 0 Event.Read) d1).2 in
  calls d1 = [OnApply 7]
  ∧ calls d2 = [OnApply 7]
  ∧ calls (release_watching 7 d2).2 = [OnApply 7; OnFree 7]
  ∧ calls (release_watching 7 d0).2 = [].
Proof.
  intros d0 d1 d2.
  destruct (hooks_once_per_registration (λ _ _ _ _, (true, [])))
    as (_ & Hnew & Hold & Hrel & Habs).
  destruct (Hnew d0 (WatchTimer 7 d_minus_one) 7 eq_refl eq_refl eq_refl eq_refl)
    as [H1 _].
  pose proof (Hold d1 (WatchIo 7 0 Event.Read) 7 eq_refl
                (ex_intro _ [WTimer (mk_ev_timer false d_minus_one d_zero)] eq_refl))
    as H2.
  destruct (Hrel d2 7 eq_refl
              (ex_intro _ [WTimer (mk_ev_timer false d_minus_one d_zero);
                           WIo (mk_ev_io true 0 Event.Read)] eq_refl)) as [H3 _].
  pose proof (Habs d0 7 eq_refl) as H4.
  split; [exact H1|]. split; [exact (eq_trans H2 H1)|].
  split; [|exact H4].
  exact (eq_trans H3 (f_equal (λ l, l ++ [OnFree 7]) (eq_trans H2 H1))).
Defined.

(** ** The reuse rule *)

Lemma request_timer timeout :
  request 0 0 (WTimer TimerWatcher.new) approve_timer (start_timer timeout timeout).
Proof.
  split; [|done|].
  - intros [| |]; cbn; split; try done; try (by intros [? _]); by auto.
  - by intros [| |].
Qed.

Lemma request_io fileno events :
  request 1 fileno (WIo IoWatcher.new) (approve_io fileno) (start_io fileno events).
Proof.
  split; [|done|].
  - intros [|i|]; cbn; split; try done; try (by intros [? _]).
    + intros [?%Z.eqb_eq|?%Z.eqb_eq]%orb_true_iff; auto.
    + intros [_ H]. unfold IoWatcher.fileno. apply orb_true_iff.
      destruct H as [H|H]; [left|right]; by apply Z.eqb_eq.
  - intros [|i|]; try done. intros _. cbn. split; [done|].
    unfold IoWatcher.start. by repeat case_match.
Qed.

Lemma request_signal signum :
  request 2 signum (WSignal SignalWatcher.new) (approve_signal signum)
    (start_signal signum).
Proof.
  split; [|done|].
  - intros [| |s]; cbn; split; try done; try (by intros [? _]).
    + intros [?%Z.eqb_eq|?%Z.eqb_eq]%orb_true_iff; auto.
    + intros [_ H]. unfold SignalWatcher.signum. apply orb_true_iff.
      destruct H as [H|H]; [left|right]; by apply Z.eqb_eq.
  - intros [| |s]; try done. intros _. cbn. split; [done|].
    unfold SignalWatcher.start. by repeat case_match.
Qed.

Lemma reuse_ok_nil : reuse_ok [].
Proof. split; intros; by simplify_list_eq. Qed.

Lemma reuse_ok_unique ws i j x y :
  reuse_ok ws → ws !! i = Some x → ws !! j = Some y →
  kind_of x = kind_of y → id_of x = id_of y → i = j.
Proof.
  intros [_ Hp] Hi Hj Hk Hid.
  destruct (Nat.lt_trichotomy i j) as [Hlt|[->|Hlt]]; [|done|].
  - by destruct (Hp i j x y Hlt Hi Hj Hk).
  - by destruct (Hp j i y x Hlt Hj Hi (eq_sym Hk)).
Qed.

Lemma reuse_ok_fmap (f : Watcher → Watcher) ws :
  (∀ w, kind_of (f w) = kind_of w ∧ id_of (f w) = id_of w) →
  reuse_ok ws → reuse_ok (f <$> ws).
Proof.
  intros Hf [Hb Hp]. split.
  - intros i w (w0 & -> & Hw0)%list_lookup_fmap_Some.
    rewrite (proj2 (Hf w0)). by eapply Hb.
  - intros i j x y Hlt (x0 & -> & Hx0)%list_lookup_fmap_Some
      (y0 & -> & Hy0)%list_lookup_fmap_Some.
    rewrite !(proj1 (Hf _)), !(proj2 (Hf _)). by eapply Hp.
Qed.

Lemma insert_last_snoc (ws : Watchers) (w w' : Watcher) :
  <[length ws := w']> (ws ++ [w]) = ws ++ [w'].
Proof. rewrite insert_app_r_alt by done. by rewrite Nat.sub_diag. Qed.

(** An existing watcher of the requested kind that the scan did not
    approve neither has the requested identity nor is unbound. *)
Lemma request_rejected k r fresh approve start x :
  request k r fresh approve start →
  approve x ≠ true → kind_of x = k → id_of x ≠ r ∧ id_of x ≠ -1.
Proof.
  intros Hreq Hno Hk. split; intros Hid; apply Hno, (req_approve _ _ _ _ _ Hreq); auto.
Qed.

Lemma request_started_id k r fresh approve start w :
  request k r fresh approve start → kind_of w = k →
  -1 ≤ id_of (start w).2 ∧ (id_of (start w).2 = r ∨ id_of (start w).2 = -1).
Proof.
  intros Hreq Hk. destruct (req_start _ _ _ _ _ Hreq w Hk) as [_ ->].
  destruct (Z.ltb_spec r 0); split; auto; lia.
Qed.

(** The scan of [setup_watching] followed by the typed [start] keeps the
    sequence well formed. *)
Lemma placed_reuse_ok k r fresh approve start ws :
  request k r fresh approve start →
  reuse_ok ws →
  reuse_ok (<[(selected fresh approve ws).1 := (start (selected fresh approve ws).2).2]>
              (extended fresh approve ws)).
Proof.
  intros Hreq [Hb Hp]. unfold selected, extended.
  destruct (list_find _ ws) as [[i w]|] eqn:Hf; cbn.
  - apply list_find_Some in Hf as (Hi & Happ & Hfirst).
    pose proof (proj1 (req_approve _ _ _ _ _ Hreq w) Happ) as [Hkw Hidw].
    destruct (request_started_id _ _ _ _ _ w Hreq Hkw) as [Hge Hid'].
    destruct (req_start _ _ _ _ _ Hreq w Hkw) as [Hk' Hr'].
    split.
    + intros j y [(<- & <- & _)|[_ Hy]]%list_lookup_insert_Some; [done|].
      by eapply Hb.
    + intros a b x y Hlt
        [(<- & <- & _)|[Ha Hx]]%list_lookup_insert_Some
        [(Hbi & <- & _)|[Hbi Hy]]%list_lookup_insert_Some Hk.
      * lia.
      * rewrite Hk' in Hk.
        destruct (Hp i b w y Hlt Hi Hy) as [Hne Hbound]; [congruence|].
        assert (id_of w = r) as Hwr by (by destruct Hidw).
        assert (id_of (start w).2 = id_of w) as ->.
        { rewrite Hr', Hwr. pose proof (Hb i w Hi).
          destruct (Z.ltb_spec r 0); [lia|done]. }
        done.
      * subst b. rewrite Hk' in Hk.
        destruct (request_rejected _ _ _ _ _ x Hreq (Hfirst a x Hx Hlt) Hk).
        split; [|done]. by destruct Hid' as [-> | ->].
      * exact (Hp a b x y Hlt Hx Hy Hk).
  - apply list_find_None in Hf. rewrite insert_last_snoc.
    destruct (request_started_id _ _ _ _ _ fresh Hreq (req_fresh _ _ _ _ _ Hreq))
      as [Hge Hid'].
    destruct (req_start _ _ _ _ _ Hreq fresh (req_fresh _ _ _ _ _ Hreq)) as [Hk' _].
    split.
    + intros j y [[_ Hy]|[_ <-]]%lookup_snoc_Some; [by eapply Hb|done].
    + intros a b x y Hlt
        [[Ha Hx]|[Ha <-]]%lookup_snoc_Some [[Hbl Hy]|[Hbl <-]]%lookup_snoc_Some Hk;
        [exact (Hp a b x y Hlt Hx Hy Hk)| |lia..].
      rewrite Hk' in Hk.
      assert (approve x ≠ true) as Hno.
      { eapply (proj1 (Forall_forall _ _) Hf). by eapply list_elem_of_lookup_2. }
      destruct (request_rejected _ _ _ _ _ x Hreq Hno Hk).
      split; [|done]. by destruct Hid' as [-> | ->].
Qed.

Lemma found_of_reuse_ok target d : well_formed d → reuse_ok (found_of target d).
Proof.
  intros Hwf. unfold found_of.
  destruct (targets d !! target) as [ws|] eqn:Ht; [by eapply Hwf|apply reuse_ok_nil].
Qed.

Lemma selected_request_kind k r fresh approve start found :
  request k r fresh approve start →
  kind_of (selected fresh approve found).2 = k.
Proof.
  intros Hreq. destruct (selected_approved fresh approve found) as [Ha| ->].
  - by apply (req_approve _ _ _ _ _ Hreq).
  - apply (req_fresh _ _ _ _ _ Hreq).
Qed.

Lemma watch_body_well_formed k r fresh approve start target d :
  request k r fresh approve start →
  well_formed d → well_formed (watch_body fresh approve start target d).2.
Proof.
  intros Hreq Hwf t ws. rewrite watch_body_eq. unfold set_targets. cbn [snd targets].
  destruct (decide (t = target)) as [->|Hne].
  - rewrite lookup_insert_eq. intros [= <-].
    eapply placed_reuse_ok; [done|]. by apply found_of_reuse_ok.
  - rewrite lookup_insert_ne by done. apply Hwf.
Qed.

(** One call that passed the gate: where the started watcher sits, that it
    is the only one of its kind and identity, and that the sequence grew
    only if the scan approved no watcher. *)
Lemma watch_body_places k r fresh approve start target d :
  request k r fresh approve start → well_formed d →
  let w' := (start (selected fresh approve (found_of target d)).2).2 in
  ∃ ws i,
    targets (watch_body fresh approve start target d).2 !! target = Some ws
    ∧ ws !! i = Some w'
    ∧ kind_of w' = k ∧ id_of w' = (if r <? 0 then -1 else r)
    ∧ (∀ j y, ws !! j = Some y → kind_of y = k → id_of y = id_of w' → j = i)
    ∧ length ws = length (extended fresh approve (found_of target d)).
Proof.
  intros Hreq Hwf. cbn zeta.
  pose proof (watch_body_well_formed _ _ _ _ _ target d Hreq Hwf) as Hwf'.
  destruct (watch_body_registry fresh approve start target d) as [(ws & Hws & Hi) _].
  destruct (req_start _ _ _ _ _ Hreq _
              (selected_request_kind _ _ _ _ _ (found_of target d) Hreq)) as [Hk Hid].
  exists ws, (selected fresh approve (found_of target d)).1.
  split; [done|]. split; [done|]. split; [done|]. split; [done|]. split.
  - intros j y Hy Hky Hidy.
    eapply (reuse_ok_unique ws); [by eapply Hwf'|done..|congruence|done].
  - rewrite watch_body_eq in Hws. unfold set_targets in Hws. cbn [snd targets] in Hws.
    rewrite lookup_insert_eq in Hws. injection Hws as <-. apply length_insert.
Qed.

Lemma kind_id_stop w :
  kind_of (Watcher.stop w) = kind_of w ∧ id_of (Watcher.stop w) = id_of w.
Proof. by destruct w as [[[] ? ?]|[[] ? ?]|[[] ?]]. Qed.

Lemma kind_id_enable_one w :
  kind_of (enable_one w) = kind_of w ∧ id_of (enable_one w) = id_of w.
Proof. by destruct w as [[[] ? ?]|[[] ? ?]|[[] ?]]. Qed.

Lemma run_op_well_formed o d : well_formed d → well_formed (run_op o d).2.
Proof.
  intros Hwf. destruct o as [t a|t f e|t s|t|t|t]; cbn [run_op].
  - rewrite watch_timer_unfold. destruct (m_cleaning d); [done|].
    eapply watch_body_well_formed; [apply request_timer|done].
  - rewrite watch_io_unfold. destruct (m_cleaning d); [done|].
    eapply watch_body_well_formed; [apply request_io|done].
  - rewrite watch_signal_unfold. destruct (m_cleaning d); [done|].
    eapply watch_body_well_formed; [apply request_signal|done].
  - destruct (m_cleaning d) eqn:Hc.
    + unfold enable_watching. by rewrite Hc.
    + intros t' ws. rewrite (targets_enable_watching _ _ _ Hc).
      case_decide; [|apply Hwf]. intros (ws0 & Hws0 & ->)%fmap_Some.
      apply reuse_ok_fmap; [apply kind_id_enable_one|by eapply Hwf].
  - intros t' ws. rewrite targets_disable_watching.
    case_decide; [|apply Hwf]. intros (ws0 & Hws0 & ->)%fmap_Some.
    apply reuse_ok_fmap; [apply kind_id_stop|by eapply Hwf].
  - intros t' ws. rewrite targets_release_watching.
    intros [_ Hws]%lookup_delete_Some. by eapply Hwf.
Qed.

Lemma run_ops_well_formed ops d : well_formed d → well_formed (run_ops ops d).
Proof.
  intros Hwf. induction ops as [|o ops IH] using rev_ind; [done|].
  rewrite run_ops_snoc. by apply run_op_well_formed.
Qed.

Lemma handler_well_formed h t r p d :
  well_formed d → well_formed (handler h t r p d).
Proof.
  intros Hwf.
  assert (Hh : well_formed (handled h t r p d)).
  { unfold handled. apply run_ops_well_formed.
    exact (run_op_well_formed (DisableWatching t) d Hwf). }
  rewrite handler_eq. destruct (h t r p _).1; [|done].
  exact (run_op_well_formed (EnableWatching t) _ Hh).
Qed.

Lemma cleanup_well_formed h d : well_formed (cleanup h d).
Proof.
  intros t ws. destruct (cleanup_scan h d) as (-> & _). by rewrite lookup_empty.
Qed.

Lemma step_well_formed h a d : well_formed d → well_formed (step h a d).
Proof.
  intros Hwf. destruct a as [o|t i r|]; cbn [step].
  - by apply run_op_well_formed.
  - unfold fire. destruct (_ ≫= _) as [w|]; [|done].
    destruct (Watcher.is_active w); [by apply handler_well_formed|done].
  - apply cleanup_well_formed.
Qed.

(** Every state a run reaches is well formed. *)
Lemma run_well_formed h acts hooks :
  well_formed (run h acts (Dispatcher_new hooks)).
Proof.
  induction acts as [|a acts IH] using rev_ind.
  - intros t ws. cbn. by rewrite lookup_empty.
  - rewrite run_snoc. by apply step_well_formed.
Qed.

Lemma extended_compatible fresh approve (ws : Watchers) i x :
  ws !! i = Some x → approve x = true → extended fresh approve ws = ws.
Proof.
  intros Hi Hx. unfold extended.
  destruct (list_find_elem_of (λ w, approve w = true) ws x) as [? ->];
    [by eapply list_elem_of_lookup_2|done..].
Qed.

Lemma start_timer_params after repeat w :
  kind_of w = 0%nat →
  ∃ x, (start_timer after repeat w).2 = WTimer x
       ∧ timer_at x = (if SFltb after d_zero then d_minus_one else after)
       ∧ timer_repeat x = (if SFltb repeat d_zero then d_zero else repeat).
Proof.
  destruct w as [t| |]; [intros _|done..]. cbn. unfold TimerWatcher.start.
  eexists. split; [done|]. by destruct (SFleb d_zero _), t as [[] ? ?].
Qed.

Lemma kind_io_inv w : kind_of w = 1%nat → ∃ x, w = WIo x ∧ io_fd x = id_of w.
Proof. destruct w; [done| |done]. by eexists. Qed.

Lemma kind_signal_inv w :
  kind_of w = 2%nat → ∃ x, w = WSignal x ∧ signal_signum x = id_of w.
Proof. destruct w; [done..|]. by eexists. Qed.

Lemma run_op_not_cleaning o d :
  m_cleaning d = false → m_cleaning (run_op o d).2 = false.
Proof.
  intros Hc. by rewrite (flags_cleaning _ _ (proj1 (run_op_hook_step o d))).
Qed.

(** C5. The reuse rule, in any state a run of the dispatcher reaches.
    After [watch_timer(T, a); watch_timer(T, b)] the sequence of [T] holds
    one timer watcher and no other, and for [b >= 0] its parameters are
    [after = repeat = b]. After two [watch_signal(T, s)] it holds a signal
    watcher that is the only one with its signal number, which is [s] for
    [s >= 0]; after two [watch_io(T, fd, _)] it holds an I/O watcher that
    is the only one on its descriptor, which is [fd] for [fd >= 0]. A
    never-bound watcher (fd or signum -1) is compatible with any request of
    its kind: when the sequence holds one, the call appends no watcher. *)
Theorem reuse_rule
    (on_target_event : OnTargetEvent) (hooks : bool) (acts : list Action)
    (target : Z) (a b : double) (s fd e1 e2 : Z) :
  let d := run on_target_event acts (Dispatcher_new hooks) in
  (∃ ws i x,
     targets (watch_timer target b (watch_timer target a d).2).2 !! target
     = Some ws
     ∧ ws !! i = Some (WTimer x)
     ∧ (∀ j y, ws !! j = Some (WTimer y) → j = i)
     ∧ (SFleb d_zero b = true → timer_at x = b ∧ timer_repeat x = b))
  ∧ (∃ ws i x,
       targets (watch_signal target s (watch_signal target s d).2).2 !! target
       = Some ws
       ∧ ws !! i = Some (WSignal x)
       ∧ (∀ j y, ws !! j = Some (WSignal y) →
                 signal_signum y = signal_signum x → j = i)
       ∧ (0 ≤ s → signal_signum x = s))
  ∧ (∃ ws i x,
       targets (watch_io target fd e2 (watch_io target fd e1 d).2).2 !! target
       = Some ws
       ∧ ws !! i = Some (WIo x)
       ∧ (∀ j y, ws !! j = Some (WIo y) → io_fd y = io_fd x → j = i)
       ∧ (0 ≤ fd → io_fd x = fd))
  ∧ (∀ ws i x,
       targets d !! target = Some ws → ws !! i = Some (WIo x) → io_fd x = -1 →
       ∃ ws', targets (watch_io target fd e1 d).2 !! target = Some ws'
              ∧ length ws' = length ws)
  ∧ (∀ ws i x,
       targets d !! target = Some ws → ws !! i = Some (WSignal x) →
       signal_signum x = -1 →
       ∃ ws', targets (watch_signal target s d).2 !! target = Some ws'
              ∧ length ws' = length ws).
Proof.
  cbn zeta.
  pose proof (run_not_cleaning on_target_event acts hooks) as Hc.
  pose proof (run_well_formed on_target_event acts hooks) as Hwf.
  set (d := run on_target_event acts (Dispatcher_new hooks)) in *.
  split; [|split; [|split; [|split]]].
  - pose proof (run_op_not_cleaning (WatchTimer target a) d Hc) as Hc1.
    pose proof (run_op_well_formed (WatchTimer target a) d Hwf) as Hwf1.
    cbn [run_op] in Hc1, Hwf1. set (d1 := (watch_timer target a d).2) in *.
    rewrite watch_timer_unfold, Hc1. cbn [negb].
    destruct (watch_body_places _ _ _ _ _ target d1 (request_timer b) Hwf1)
      as (ws & i & Hws & Hi & Hk & Hid & Huniq & _).
    destruct (start_timer_params b b _
                (selected_request_kind _ _ _ _ _ (found_of target d1)
                   (request_timer b))) as (x & Hx & Hat & Hrep).
    rewrite Hx in Hi. exists ws, i, x. repeat (split; [done|]). split.
    + intros j y Hy. by apply (Huniq j (WTimer y)).
    + intros Hb. by rewrite (SFleb_zero_not_neg _ Hb) in Hat, Hrep.
  - pose proof (run_op_not_cleaning (WatchSignal target s) d Hc) as Hc1.
    pose proof (run_op_well_formed (WatchSignal target s) d Hwf) as Hwf1.
    cbn [run_op] in Hc1, Hwf1. set (d1 := (watch_signal target s d).2) in *.
    rewrite watch_signal_unfold, Hc1. cbn [negb].
    destruct (watch_body_places _ _ _ _ _ target d1 (request_signal s) Hwf1)
      as (ws & i & Hws & Hi & Hk & Hid & Huniq & _).
    destruct (kind_signal_inv _ Hk) as (x & Hx & Hsig).
    rewrite Hx in Hi. exists ws, i, x. repeat (split; [done|]). split.
    + intros j y Hy Hys. apply (Huniq j (WSignal y)); [done..|]. cbn. congruence.
    + intros Hs. rewrite Hsig, Hid. destruct (Z.ltb_spec s 0); [lia|done].
  - pose proof (run_op_not_cleaning (WatchIo target fd e1) d Hc) as Hc1.
    pose proof (run_op_well_formed (WatchIo target fd e1) d Hwf) as Hwf1.
    cbn [run_op] in Hc1, Hwf1. set (d1 := (watch_io target fd e1 d).2) in *.
    rewrite watch_io_unfold, Hc1. cbn [negb].
    destruct (watch_body_places _ _ _ _ _ target d1 (request_io fd e2) Hwf1)
      as (ws & i & Hws & Hi & Hk & Hid & Huniq & _).
    destruct (kind_io_inv _ Hk) as (x & Hx & Hio).
    rewrite Hx in Hi. exists ws, i, x. repeat (split; [done|]). split.
    + intros j y Hy Hys. apply (Huniq j (WIo y)); [done..|]. cbn. congruence.
    + intros Hfd. rewrite Hio, Hid. destruct (Z.ltb_spec fd 0); [lia|done].
  - intros ws i x Hws Hi Hx. rewrite watch_io_unfold, Hc. cbn [negb].
    destruct (watch_body_places _ _ _ _ _ target d (request_io fd e1) Hwf)
      as (ws' & _ & Hws' & _ & _ & _ & _ & Hlen).
    exists ws'. split; [done|]. rewrite Hlen. unfold found_of. rewrite Hws. cbn.
    f_equal. eapply extended_compatible; [done|].
    apply (req_approve _ _ _ _ _ (request_io fd e1)). by split; [|right].
  - intros ws i x Hws Hi Hx. rewrite watch_signal_unfold, Hc. cbn [negb].
    destruct (watch_body_places _ _ _ _ _ target d (request_signal s) Hwf)
      as (ws' & _ & Hws' & _ & _ & _ & _ & Hlen).
    exists ws'. split; [done|]. rewrite Hlen. unfold found_of. rewrite Hws. cbn.
    f_equal. eapply extended_compatible; [done|].
    apply (req_approve _ _ _ _ _ (request_signal s)). by split; [|right].
Qed.

(** Target 1 starts with a never-bound I/O watcher, left by a [watch_io] on
    descriptor -3. Two timers (0 then 1 second), two signal watchers for
    signal 2 and two I/O watchers on descriptor 4 are then requested; the
    first [watch_io] on descriptor 4 appends nothing. *)
Lemma reuse_rule_witness :
  let h : OnTargetEvent := λ _ _ _ _, (true, []) in
  let d := run h [Invoke (WatchIo 1 (-3) Event.Read)] (Dispatcher_new false) in
  (∃ ws i x,
     targets (watch_timer 1 d_one (watch_timer 1 d_zero d).2).2 !! 1 = Some ws
     ∧ ws !! i = Some (WTimer x) ∧ timer_at x = d_one ∧ timer_repeat x = d_one)
  ∧ (∃ ws i x,
       targets (watch_signal 1 2 (watch_signal 1 2 d).2).2 !! 1 = Some ws
       ∧ ws !! i = Some (WSignal x) ∧ signal_signum x = 2)
  ∧ (∃ ws i x,
       targets (watch_io 1 4 Event.Write (watch_io 1 4 Event.Read d).2).2 !! 1
       = Some ws
       ∧ ws !! i = Some (WIo x) ∧ io_fd x = 4)
  ∧ (∃ ws', targets (watch_io 1 4 Event.Read d).2 !! 1 = Some ws'
            ∧ length ws' = 1%nat).
Proof.
  intros h d.
  destruct (reuse_rule h false [Invoke (WatchIo 1 (-3) Event.Read)] 1
              d_zero d_one 2 4 Event.Read Event.Write)
    as ((wt & it & xt & Hwt & Hit & _ & Hb)
        & (wsg & isg & xsg & Hwsg & Hisg & _ & Hs)
        & (wio & iio & xio & Hwio & Hiio & _ & Hfd) & Hub & _).
  split.
  { exists wt, it, xt. destruct (Hb eq_refl) as [Hat Hrep].
    split; [exact Hwt|]. split; [exact Hit|]. split; [exact Hat|exact Hrep]. }
  split.
  { exists wsg, isg, xsg.
    split; [exact Hwsg|]. split; [exact Hisg|]. apply Hs. discriminate. }
  split.
  { exists wio, iio, xio.
    split; [exact Hwio|]. split; [exact Hiio|]. apply Hfd. discriminate. }
  exact (Hub [WIo (mk_ev_io false (-1) Event.Read)] 0%nat
           (mk_ev_io false (-1) Event.Read) eq_refl eq_refl eq_refl).
Defined.

(** * Further properties *)

(** ** The typed [start] methods of the watchers *)

Lemma IoWatcher_start_eq fileno revents w :
  IoWatcher.start fileno revents w
  = ((0 <=? fileno) && (0 <? revents),
     mk_ev_io ((0 <=? fileno) && (0 <? revents))
       (Z.max fileno (-1)) (Z.max revents 0)).
Proof.
  unfold IoWatcher.start.
  destruct (Z.ltb_spec fileno 0) as [Hf|Hf], (Z.ltb_spec revents 0) as [Hr|Hr].
  - rewrite (Z.max_r fileno), (Z.max_r revents) by lia.
    rewrite (proj2 (Z.leb_gt 0 fileno)) by lia. by destruct w as [[] ? ?].
  - rewrite (Z.max_r fileno), (Z.max_l revents) by lia.
    rewrite (proj2 (Z.leb_gt 0 fileno)) by lia. by destruct w as [[] ? ?].
  - rewrite (Z.max_l fileno), (Z.max_r revents) by lia.
    rewrite (proj2 (Z.leb_le 0 fileno)), (proj2 (Z.ltb_ge 0 revents)) by lia.
    by destruct w as [[] ? ?].
  - rewrite (Z.max_l fileno), (Z.max_l revents) by lia.
    rewrite (proj2 (Z.leb_le 0 fileno)) by lia.
    destruct (0 <? revents); by destruct w as [[] ? ?].
Qed.
Lemma SignalWatcher_start_eq signum w :
  SignalWatcher.start signum w
  = (0 <=? signum, mk_ev_signal (0 <=? signum) (Z.max signum (-1))).
Proof.
  unfold SignalWatcher.start.
  destruct (Z.ltb_spec signum 0) as [Hs|Hs].
  - rewrite (Z.max_r signum) by lia.
    rewrite (proj2 (Z.leb_gt 0 signum)) by lia. by destruct w as [[] ?].
  - rewrite (Z.max_l signum) by lia.
    rewrite (proj2 (Z.leb_le 0 signum)) by lia. by destruct w as [[] ?].
Qed.

Lemma TimerWatcher_start_eq after repeat w :
  TimerWatcher.start after repeat w
  = (SFleb d_zero after,
     mk_ev_timer (SFleb d_zero after)
       (if SFltb after d_zero then d_minus_one else after)
       (if SFltb repeat d_zero then d_zero else repeat)).
Proof.
  unfold TimerWatcher.start. destruct (SFltb after d_zero) eqn:Hlt.
  - rewrite (SFltb_zero_not_nonneg _ Hlt). by destruct w as [[] ? ?].
  - by destruct (SFleb d_zero after), w as [[] ? ?].
Qed.

(** X1. [IoWatcher::start(fileno, revents)] stores the descriptor with every
    negative value replaced by -1 and the mask with every negative value
    replaced by 0; the watcher is armed, and [start] returns true, exactly
    when [fileno >= 0] and [revents > 0]. *)
Theorem IoWatcher_start_outcome (fileno revents : Z) (w : ev_io) :
  let r := (IoWatcher.start fileno revents w).1 in
  let w' := (IoWatcher.start fileno revents w).2 in
  io_fd w' = Z.max fileno (-1)
  ∧ io_events w' = Z.max revents 0
  ∧ GenericWatcher.is_active w' = r
  ∧ (r = true ↔ 0 ≤ fileno ∧ 0 < revents).
Proof.
  cbn zeta. rewrite IoWatcher_start_eq. cbn [fst snd io_fd io_events].
  split; [done|]. split; [done|]. split; [done|].
  by rewrite andb_true_iff, Z.leb_le, Z.ltb_lt.
Qed.

(** X2. [SignalWatcher::start(signum)] stores the signal number with every
    negative value replaced by -1; the watcher is armed, and [start] returns
    true, exactly when [signum >= 0], signal number 0 included. *)
Theorem SignalWatcher_start_outcome (signum : Z) (w : ev_signal) :
  let r := (SignalWatcher.start signum w).1 in
  let w' := (SignalWatcher.start signum w).2 in
  signal_signum w' = Z.max signum (-1)
  ∧ GenericWatcher.is_active w' = r
  ∧ (r = true ↔ 0 ≤ signum).
Proof.
  cbn zeta. rewrite SignalWatcher_start_eq. cbn [fst snd signal_signum].
  split; [done|]. split; [done|]. by rewrite Z.leb_le.
Qed.

(** X3. [IoWatcher::start(revents)], the overload without descriptor, on a
    watcher whose descriptor is at least -1 (as the constructors and
    [start] leave it): the descriptor is kept; the watcher is armed exactly
    when it is bound ([fd >= 0]) and [revents > 0], so a never-bound watcher
    stays unarmed. *)
Theorem IoWatcher_start_mask_keeps_fd (revents : Z) (w : ev_io) :
  -1 ≤ io_fd w →
  io_fd (IoWatcher.start_mask revents w).2 = io_fd w
  ∧ io_events (IoWatcher.start_mask revents w).2 = Z.max revents 0
  ∧ ((IoWatcher.start_mask revents w).1 = true ↔ 0 ≤ io_fd w ∧ 0 < revents)
  ∧ GenericWatcher.is_active (IoWatcher.start_mask revents w).2
    = (IoWatcher.start_mask revents w).1.
Proof.
  intros Hfd. unfold IoWatcher.start_mask, IoWatcher.fileno.
  rewrite IoWatcher_start_eq. cbn [fst snd io_fd io_events].
  split; [lia|]. split; [done|]. split; [|done].
  by rewrite andb_true_iff, Z.leb_le, Z.ltb_lt.
Qed.

Lemma IoWatcher_start_mask_keeps_fd_witness :
  io_fd (IoWatcher.start_mask Event.Write (mk_ev_io true 4 Event.Read)).2 = 4
  ∧ (IoWatcher.start_mask Event.Write IoWatcher.new).1 = false.
Proof.
  split.
  - apply (IoWatcher_start_mask_keeps_fd Event.Write (mk_ev_io true 4 Event.Read)).
    discriminate.
  - reflexivity.
Defined.

(** X4. A typed [start] leaves nothing of the previous registration: the
    watcher it yields and its result are the same whatever the state,
    active or not, and the parameters of the watcher it is called on. *)
Theorem typed_start_forgets
    (after repeat : double) (fileno revents signum : Z)
    (t t' : ev_timer) (i i' : ev_io) (s s' : ev_signal) :
  TimerWatcher.start after repeat t = TimerWatcher.start after repeat t'
  ∧ IoWatcher.start fileno revents i = IoWatcher.start fileno revents i'
  ∧ SignalWatcher.start signum s = SignalWatcher.start signum s'.
Proof.
  by rewrite !TimerWatcher_start_eq, !IoWatcher_start_eq, !SignalWatcher_start_eq.
Qed.

(** X5. The guards of the inherited [start()] and [stop()], for any kind
    of loop watcher and whatever the loop's start and stop functions do:
    [start()] on an active watcher returns true and leaves the watcher as
    it is, without entering the loop; [stop()] on an inactive watcher
    leaves it as it is; the result of [start()] is the activity of the
    watcher it leaves. If the loop's start function arms every watcher,
    [start()] returns true and a second [start()] changes nothing; if the
    loop's stop function disarms every watcher, [stop()] leaves the watcher
    inactive and a second [stop()] changes nothing. *)
Theorem GenericWatcher_start_stop_guarded {W : Type} `{LoopWatcher W} (w : W) :
  (GenericWatcher.is_active w = true → GenericWatcher.start w = (true, w))
  ∧ (GenericWatcher.is_active w = false → GenericWatcher.stop w = w)
  ∧ (GenericWatcher.start w).1
    = GenericWatcher.is_active (GenericWatcher.start w).2
  ∧ ((∀ v : W, GenericWatcher.is_active (start_watching v) = true) →
     (GenericWatcher.start w).1 = true
     ∧ GenericWatcher.start (GenericWatcher.start w).2 = GenericWatcher.start w)
  ∧ ((∀ v : W, GenericWatcher.is_active (stop_watching v) = false) →
     GenericWatcher.is_active (GenericWatcher.stop w) = false
     ∧ GenericWatcher.stop (GenericWatcher.stop w) = GenericWatcher.stop w).
Proof.
  unfold GenericWatcher.start, GenericWatcher.stop, GenericWatcher.is_active.
  cbn zeta. split; [|split; [|split; [|split]]].
  - intros Ha. rewrite Ha. cbn [negb]. by rewrite Ha.
  - intros Ha. by rewrite Ha.
  - done.
  - intros Harm. destruct (active w) eqn:Ha; cbn [negb fst snd].
    + rewrite Ha. cbn [negb]. by rewrite Ha.
    + rewrite !Harm. cbn [negb]. by rewrite Harm.
  - intros Hstop. destruct (active w) eqn:Ha.
    + by rewrite !Hstop.
    + by rewrite Ha.
Qed.

(** An active timer is not handed to the loop again; an I/O watcher that
    was stopped is not stopped twice. *)
Lemma GenericWatcher_start_stop_guarded_witness :
  GenericWatcher.start (mk_ev_timer true d_one d_zero)
  = (true, mk_ev_timer true d_one d_zero)
  ∧ GenericWatcher.stop (GenericWatcher.stop (mk_ev_io true 4 Event.Read))
    = GenericWatcher.stop (mk_ev_io true 4 Event.Read).
Proof.
  split.
  - apply (GenericWatcher_start_stop_guarded (mk_ev_timer true d_one d_zero)).
    reflexivity.
  - apply (GenericWatcher_start_stop_guarded (mk_ev_io true 4 Event.Read)).
    intros v. reflexivity.
Defined.

(** ** The outcome of the [watch_*] methods *)

(** When the typed [start] has one outcome on every watcher of the
    requested kind, that outcome is the result of the call, and the watcher
    it yields sits in the target's sequence. *)
Lemma watch_body_outcome fresh approve start (kind : Watcher → bool)
    target d (r0 : bool) (w0 : Watcher) :
  (∀ w, approve w = true → kind w = true) → kind fresh = true →
  (∀ w, kind w = true → start w = (r0, w0)) →
  (watch_body fresh approve start target d).1 = r0
  ∧ ∃ ws i, targets (watch_body fresh approve start target d).2 !! target = Some ws
            ∧ ws !! i = Some w0.
Proof.
  intros Ha Hf Hs.
  pose proof (Hs _ (selected_kind fresh approve kind (found_of target d) Ha Hf)) as Hsel.
  destruct (watch_body_registry fresh approve start target d) as [(ws & Hws & Hi) _].
  rewrite Hsel in Hi. split.
  - rewrite watch_body_eq. cbn [fst]. by rewrite Hsel.
  - by exists ws, (selected fresh approve (found_of target d)).1.
Qed.

(** A watcher the scan does not approve keeps its place and its state. *)
Lemma watch_body_keeps fresh approve start target d (ws : Watchers) j y :
  targets d !! target = Some ws → ws !! j = Some y → approve y ≠ true →
  ∃ ws', targets (watch_body fresh approve start target d).2 !! target = Some ws'
         ∧ ws' !! j = Some y.
Proof.
  intros Hws Hj Hno. rewrite watch_body_eq. unfold set_targets. cbn [snd targets].
  rewrite lookup_insert_eq. eexists. split; [done|].
  unfold found_of, selected, extended. rewrite Hws. cbn.
  destruct (list_find _ ws) as [[i w]|] eqn:Hf; cbn.
  - apply list_find_Some in Hf as (Hi & Happ & _).
    rewrite list_lookup_insert_ne; [done|]. intros ->. congruence.
  - pose proof (lookup_lt_Some _ _ _ Hj) as Hlt.
    rewrite list_lookup_insert_ne by lia. by rewrite lookup_app_l.
Qed.

(** X6. [watch_timer(T, timeout)] returns true exactly when no cleanup is
    in progress and [timeout >= 0] (a NaN fails); when it returns true the
    sequence of [T] holds an active timer watcher with
    [after = repeat = timeout]. *)
Theorem watch_timer_outcome (target : Z) (timeout : double) (d : Dispatcher) :
  (watch_timer target timeout d).1 = negb (m_cleaning d) && SFleb d_zero timeout
  ∧ ((watch_timer target timeout d).1 = true →
     ∃ ws i, targets (watch_timer target timeout d).2 !! target = Some ws
             ∧ ws !! i = Some (WTimer (mk_ev_timer true timeout timeout))).
Proof.
  rewrite watch_timer_unfold. destruct (m_cleaning d); cbn [negb andb]; [done|].
  destruct (watch_body_outcome (WTimer TimerWatcher.new) approve_timer
              (start_timer timeout timeout) is_timer target d
              (SFleb d_zero timeout)
              (WTimer (mk_ev_timer (SFleb d_zero timeout)
                 (if SFltb timeout d_zero then d_minus_one else timeout)
                 (if SFltb timeout d_zero then d_zero else timeout))))
    as [Hr Hw]; [done|done| |].
  { intros [t| |]; [intros _|done..]. unfold start_timer.
    by rewrite TimerWatcher_start_eq. }
  split; [done|]. rewrite Hr. intros Hge.
  by rewrite Hge, (SFleb_zero_not_neg _ Hge) in Hw.
Qed.

Lemma watch_timer_outcome_witness :
  ∃ ws i, targets (watch_timer 1 d_one (Dispatcher_new false)).2 !! 1 = Some ws
          ∧ ws !! i = Some (WTimer (mk_ev_timer true d_one d_one)).
Proof.
  apply (watch_timer_outcome 1 d_one (Dispatcher_new false)). reflexivity.
Defined.

(** X7. [watch_io(T, fileno, events)] returns true exactly when no cleanup
    is in progress, [fileno >= 0] and [events > 0]; when it returns true the
    sequence of [T] holds an active I/O watcher on [fileno] with the mask
    [events]. *)
Theorem watch_io_outcome (target fileno events : Z) (d : Dispatcher) :
  (watch_io target fileno events d).1
  = negb (m_cleaning d) && ((0 <=? fileno) && (0 <? events))
  ∧ ((watch_io target fileno events d).1 = true →
     ∃ ws i, targets (watch_io target fileno events d).2 !! target = Some ws
             ∧ ws !! i = Some (WIo (mk_ev_io true fileno events))).
Proof.
  rewrite watch_io_unfold. destruct (m_cleaning d); cbn [negb andb]; [done|].
  destruct (watch_body_outcome (WIo IoWatcher.new) (approve_io fileno)
              (start_io fileno events) is_io target d
              ((0 <=? fileno) && (0 <? events))
              (WIo (mk_ev_io ((0 <=? fileno) && (0 <? events))
                      (Z.max fileno (-1)) (Z.max events 0))))
    as [Hr Hw]; [apply approve_io_is_io|done| |].
  { intros [|i|]; [done|intros _|done]. unfold start_io.
    by rewrite IoWatcher_start_eq. }
  split; [done|]. rewrite Hr. intros Hok. rewrite Hok in Hw.
  apply andb_true_iff in Hok as [?%Z.leb_le ?%Z.ltb_lt].
  by rewrite (Z.max_l fileno), (Z.max_l events) in Hw by lia.
Qed.

Lemma watch_io_outcome_witness :
  ∃ ws i, targets (watch_io 1 4 Event.Read (Dispatcher_new false)).2 !! 1 = Some ws
          ∧ ws !! i = Some (WIo (mk_ev_io true 4 Event.Read)).
Proof.
  apply (watch_io_outcome 1 4 Event.Read (Dispatcher_new false)). reflexivity.
Defined.

(** X8. [watch_signal(T, signum)] returns true exactly when no cleanup is
    in progress and [signum >= 0]; when it returns true the sequence of [T]
    holds an active signal watcher for [signum]. *)
Theorem watch_signal_outcome (target signum : Z) (d : Dispatcher) :
  (watch_signal target signum d).1 = negb (m_cleaning d) && (0 <=? signum)
  ∧ ((watch_signal target signum d).1 = true →
     ∃ ws i, targets (watch_signal target signum d).2 !! target = Some ws
             ∧ ws !! i = Some (WSignal (mk_ev_signal true signum))).
Proof.
  rewrite watch_signal_unfold. destruct (m_cleaning d); cbn [negb andb]; [done|].
  destruct (watch_body_outcome (WSignal SignalWatcher.new) (approve_signal signum)
              (start_signal signum) is_signal target d
              (0 <=? signum)
              (WSignal (mk_ev_signal (0 <=? signum) (Z.max signum (-1)))))
    as [Hr Hw]; [apply approve_signal_is_signal|done| |].
  { intros [| |s]; [done..|intros _]. unfold start_signal.
    by rewrite SignalWatcher_start_eq. }
  split; [done|]. rewrite Hr. intros Hok. rewrite Hok in Hw.
  apply Z.leb_le in Hok. by rewrite (Z.max_l signum) in Hw by lia.
Qed.

Lemma watch_signal_outcome_witness :
  ∃ ws i, targets (watch_signal 1 2 (Dispatcher_new false)).2 !! 1 = Some ws
          ∧ ws !! i = Some (WSignal (mk_ev_signal true 2)).
Proof.
  apply (watch_signal_outcome 1 2 (Dispatcher_new false)). reflexivity.
Defined.

(** X9. A [watch_*] call touches one watcher at most: a watcher of the
    target that the [approve] closure of the call rejects (another kind,
    another bound descriptor or signal number) keeps its position, its
    parameters and its activity, and the sequences of the other targets are
    as before. *)
Theorem watch_keeps_incompatible
    (o : Op) (target : Z) (d : Dispatcher) (ws : Watchers) (j : nat) (y : Watcher) :
  watch_target o = Some target →
  targets d !! target = Some ws → ws !! j = Some y → compatible o y = false →
  (∃ ws', targets (run_op o d).2 !! target = Some ws' ∧ ws' !! j = Some y)
  ∧ ∀ t, t ≠ target → targets (run_op o d).2 !! t = targets d !! t.
Proof.
  intros Ho Hws Hj Hno. split.
  - destruct o as [t a|t f e|t s|t|t|t]; cbn in Ho; try done;
      injection Ho as ->; cbn [run_op compatible] in *.
    + rewrite watch_timer_unfold. destruct (m_cleaning d); cbn [negb]; [by eexists|].
      eapply watch_body_keeps; [done..|congruence].
    + rewrite watch_io_unfold. destruct (m_cleaning d); cbn [negb]; [by eexists|].
      eapply watch_body_keeps; [done..|congruence].
    + rewrite watch_signal_unfold. destruct (m_cleaning d); cbn [negb]; [by eexists|].
      eapply watch_body_keeps; [done..|congruence].
  - intros t Hne. apply run_op_other.
    destruct o; cbn in Ho; try done; by injection Ho as ->.
Qed.

(** A timer next to an I/O watcher on descriptor 4: a [watch_io] on
    descriptor 5 leaves both where and as they are. *)
Lemma watch_keeps_incompatible_witness :
  let d := (watch_io 1 4 Event.Read (watch_timer 1 d_one (Dispatcher_new false)).2).2 in
  (∃ ws', targets (run_op (WatchIo 1 5 Event.Write) d).2 !! 1 = Some ws'
          ∧ ws' !! 0%nat = Some (WTimer (mk_ev_timer true d_one d_one)))
  ∧ (∃ ws', targets (run_op (WatchIo 1 5 Event.Write) d).2 !! 1 = Some ws'
            ∧ ws' !! 1%nat = Some (WIo (mk_ev_io true 4 Event.Read))).
Proof.
  intros d. split.
  - exact (proj1 (watch_keeps_incompatible (WatchIo 1 5 Event.Write) 1 d
             [WTimer (mk_ev_timer true d_one d_one); WIo (mk_ev_io true 4 Event.Read)]
             0%nat _ eq_refl eq_refl eq_refl eq_refl)).
  - exact (proj1 (watch_keeps_incompatible (WatchIo 1 5 Event.Write) 1 d
             [WTimer (mk_ev_timer true d_one d_one); WIo (mk_ev_io true 4 Event.Read)]
             1%nat _ eq_refl eq_refl eq_refl eq_refl)).
Defined.

Lemma watch_io_armed target fileno events d :
  m_cleaning d = false → 0 ≤ fileno → 0 < events →
  ∃ ws i, targets (watch_io target fileno events d).2 !! target = Some ws
          ∧ ws !! i = Some (WIo (mk_ev_io true fileno events)).
Proof.
  intros Hc Hf He. rewrite watch_io_unfold, Hc. cbn [negb].
  apply (watch_body_outcome _ _ _ is_io _ _ true);
    [apply approve_io_is_io|done|].
  intros [|i|]; [done|intros _|done]. unfold start_io.
  rewrite IoWatcher_start_eq, (Z.max_l fileno), (Z.max_l events) by lia.
  by rewrite (proj2 (Z.leb_le 0 fileno)), (proj2 (Z.ltb_lt 0 events)).
Qed.

(** X10. One target holds I/O watchers on distinct descriptors side by
    side: after a successful [watch_io(T, fd1, e1)], a successful
    [watch_io(T, fd2, e2)] on another descriptor leaves the first watcher
    active on [fd1] with its mask, at another position than the watcher on
    [fd2]. *)
Theorem distinct_descriptors_coexist
    (target fd1 e1 fd2 e2 : Z) (d : Dispatcher) :
  m_cleaning d = false →
  0 ≤ fd1 → 0 < e1 → 0 ≤ fd2 → 0 < e2 → fd1 ≠ fd2 →
  ∃ ws i j,
    targets (watch_io target fd2 e2 (watch_io target fd1 e1 d).2).2 !! target
    = Some ws
    ∧ i ≠ j
    ∧ ws !! i = Some (WIo (mk_ev_io true fd1 e1))
    ∧ ws !! j = Some (WIo (mk_ev_io true fd2 e2)).
Proof.
  intros Hc Hf1 He1 Hf2 He2 Hne.
  destruct (watch_io_armed target fd1 e1 d Hc Hf1 He1) as (ws1 & i & Hws1 & Hi).
  pose proof (run_op_not_cleaning (WatchIo target fd1 e1) d Hc) as Hc1.
  cbn [run_op] in Hc1. set (d1 := (watch_io target fd1 e1 d).2) in *.
  destruct (watch_io_armed target fd2 e2 d1 Hc1 Hf2 He2) as (ws2 & j & Hws2 & Hj).
  assert (∃ ws', targets (watch_io target fd2 e2 d1).2 !! target = Some ws'
                 ∧ ws' !! i = Some (WIo (mk_ev_io true fd1 e1))) as (ws' & Hws' & Hi').
  { rewrite watch_io_unfold, Hc1. cbn [negb].
    eapply watch_body_keeps; [done..|]. cbn. unfold IoWatcher.fileno. cbn.
    rewrite (proj2 (Z.eqb_neq fd1 fd2)), (proj2 (Z.eqb_neq fd1 (-1))) by lia.
    done. }
  rewrite Hws2 in Hws'. injection Hws' as <-.
  exists ws2, i, j. split; [done|]. split; [|done].
  intros ->. rewrite Hi' in Hj. by injection Hj.
Qed.

Lemma distinct_descriptors_coexist_witness :
  ∃ ws i j,
    targets (watch_io 1 5 Event.Write
               (watch_io 1 4 Event.Read (Dispatcher_new false)).2).2 !! 1 = Some ws
    ∧ i ≠ j
    ∧ ws !! i = Some (WIo (mk_ev_io true 4 Event.Read))
    ∧ ws !! j = Some (WIo (mk_ev_io true 5 Event.Write)).
Proof.
  apply (distinct_descriptors_coexist 1 4 Event.Read 5 Event.Write
           (Dispatcher_new false)); [reflexivity|discriminate|reflexivity
           |discriminate|reflexivity|discriminate].
Defined.

(** ** [enable_watching] and [disable_watching] *)

Lemma fmap_stop_enable (ws : Watchers) :
  Watcher.stop <$> (enable_one <$> ws) = Watcher.stop <$> ws.
Proof.
  rewrite <- list_fmap_compose. apply list_fmap_ext. intros _ w _. cbn.
  by destruct w as [[[] ? ?]|[[] ? ?]|[[] ?]].
Qed.

Lemma fmap_enable_enable (ws : Watchers) :
  enable_one <$> (enable_one <$> ws) = enable_one <$> ws.
Proof.
  rewrite <- list_fmap_compose. apply list_fmap_ext. intros _ w _. cbn.
  by destruct w as [[[] ? ?]|[[] ? ?]|[[] ?]].
Qed.

Lemma fmap_stop_stop (ws : Watchers) :
  Watcher.stop <$> (Watcher.stop <$> ws) = Watcher.stop <$> ws.
Proof.
  rewrite <- list_fmap_compose. apply list_fmap_ext. intros _ w _. cbn.
  by destruct w as [[[] ? ?]|[[] ? ?]|[[] ?]].
Qed.

Lemma fmap_enable_stop (ws : Watchers) :
  enable_one <$> (Watcher.stop <$> ws) = with_active true <$> ws.
Proof.
  rewrite <- list_fmap_compose. apply list_fmap_ext. intros _ w _. cbn.
  by destruct w as [[[] ? ?]|[[] ? ?]|[[] ?]].
Qed.

(** X11. [enable_watching] and [disable_watching] on a target that is not
    registered return false and change nothing. On a registered target,
    outside cleanup: disabling then enabling leaves every watcher active
    with its parameters; enabling then disabling is disabling; and each of
    the two is idempotent, result and state. *)
Theorem enable_disable_compose (target : Z) (d : Dispatcher) :
  (targets d !! target = None →
     enable_watching target d = (false, d) ∧ disable_watching target d = (false, d))
  ∧ (∀ ws, m_cleaning d = false → targets d !! target = Some ws →
       targets (enable_watching target (disable_watching target d).2).2 !! target
       = Some (with_active true <$> ws)
       ∧ disable_watching target (enable_watching target d).2
         = disable_watching target d
       ∧ enable_watching target (enable_watching target d).2
         = enable_watching target d
       ∧ disable_watching target (disable_watching target d).2
         = disable_watching target d).
Proof.
  split.
  - intros Hno. unfold enable_watching, disable_watching. rewrite Hno.
    by destruct (m_cleaning d).
  - intros ws Hc Hws. unfold enable_watching, disable_watching.
    rewrite Hc, Hws. cbn. rewrite Hc. cbn. rewrite !lookup_insert_eq. cbn.
    rewrite !lookup_insert_eq, !insert_insert_eq.
    by rewrite fmap_enable_stop, fmap_stop_enable, fmap_enable_enable,
      fmap_stop_stop.
Qed.

Lemma enable_disable_compose_witness :
  let d := (watch_timer 1 d_one (Dispatcher_new false)).2 in
  enable_watching 2 d = (false, d)
  ∧ targets (enable_watching 1 (disable_watching 1 d).2).2 !! 1
    = Some [WTimer (mk_ev_timer true d_one d_one)].
Proof.
  intros d. destruct (enable_disable_compose 2 d) as [Hno _].
  destruct (enable_disable_compose 1 d) as [_ Hin].
  split; [exact (proj1 (Hno eq_refl))|].
  exact (proj1 (Hin [WTimer (mk_ev_timer true d_one d_one)] eq_refl eq_refl)).
Defined.

(** X12. [enable_watching] starts every inactive watcher of the target
    without the guard of the typed [start]: the I/O watcher that a
    [watch_io] with a negative descriptor left unarmed, with descriptor -1,
    is handed to the loop, which is taken to arm what it is handed, and
    counts as active; so does the timer watcher that a [watch_timer] with a
    negative timeout left with [after = -1]. *)
Theorem enable_arms_refused_watcher
    (target fileno events : Z) (timeout : double) (d : Dispatcher) :
  m_cleaning d = false →
  (fileno < 0 →
     (watch_io target fileno events d).1 = false
     ∧ ∃ ws i,
         targets (enable_watching target (watch_io target fileno events d).2).2
           !! target = Some ws
         ∧ ws !! i = Some (WIo (mk_ev_io true (-1) (Z.max events 0))))
  ∧ (SFltb timeout d_zero = true →
     (watch_timer target timeout d).1 = false
     ∧ ∃ ws i,
         targets (enable_watching target (watch_timer target timeout d).2).2
           !! target = Some ws
         ∧ ws !! i = Some (WTimer (mk_ev_timer true d_minus_one d_zero))).
Proof.
  intros Hc. split.
  - intros Hneg.
    pose proof (run_op_not_cleaning (WatchIo target fileno events) d Hc) as Hc1.
    cbn [run_op] in Hc1. rewrite (targets_enable_watching _ _ _ Hc1), decide_True by done.
    rewrite watch_io_unfold, Hc in *. cbn [negb] in *.
    destruct (watch_body_outcome (WIo IoWatcher.new) (approve_io fileno)
                (start_io fileno events) is_io target d false
                (WIo (mk_ev_io false (-1) (Z.max events 0))))
      as (Hr & ws & i & Hws & Hi); [apply approve_io_is_io|done| |].
    { intros [|x|]; [done|intros _|done]. unfold start_io.
      rewrite IoWatcher_start_eq, (Z.max_r fileno) by lia.
      by rewrite (proj2 (Z.leb_gt 0 fileno)). }
    split; [done|]. exists (enable_one <$> ws), i. rewrite Hws. split; [done|].
    by rewrite list_lookup_fmap, Hi.
  - intros Hneg.
    pose proof (run_op_not_cleaning (WatchTimer target timeout) d Hc) as Hc1.
    cbn [run_op] in Hc1. rewrite (targets_enable_watching _ _ _ Hc1), decide_True by done.
    rewrite watch_timer_unfold, Hc in *. cbn [negb] in *.
    destruct (watch_body_outcome (WTimer TimerWatcher.new) approve_timer
                (start_timer timeout timeout) is_timer target d false
                (WTimer (mk_ev_timer false d_minus_one d_zero)))
      as (Hr & ws & i & Hws & Hi); [done|done| |].
    { intros [x| |]; [intros _|done..]. unfold start_timer.
      by rewrite TimerWatcher_start_eq, Hneg, (SFltb_zero_not_nonneg _ Hneg). }
    split; [done|]. exists (enable_one <$> ws), i. rewrite Hws. split; [done|].
    by rewrite list_lookup_fmap, Hi.
Qed.

Lemma enable_arms_refused_watcher_witness :
  (∃ ws i,
     targets (enable_watching 1
                (watch_io 1 (-3) Event.Read (Dispatcher_new false)).2).2 !! 1
     = Some ws
     ∧ ws !! i = Some (WIo (mk_ev_io true (-1) (Z.max Event.Read 0))))
  ∧ (∃ ws i,
       targets (enable_watching 1
                  (watch_timer 1 d_minus_one (Dispatcher_new false)).2).2 !! 1
       = Some ws
       ∧ ws !! i = Some (WTimer (mk_ev_timer true d_minus_one d_zero))).
Proof.
  destruct (enable_arms_refused_watcher 1 (-3) Event.Read d_minus_one
              (Dispatcher_new false) eq_refl) as [Hio Ht].
  split; [exact (proj2 (Hio eq_refl))|exact (proj2 (Ht eq_refl))].
Defined.

(** ** Invariants of the runs *)

(** A property of the state that the six operations, the recording of a
    handler invocation and the setting of [m_cleaning] keep is kept by
    deliveries, cleanup scans and whole runs, whatever the handler. *)
Section RunInvariant.
Variable I : Dispatcher → Prop.
Hypothesis I_op : ∀ o d, I d → I (run_op o d).2.
Hypothesis I_event : ∀ t r p d, I d → I (record_call (OnEvent t r p) d).
Hypothesis I_flag : ∀ b d, I d → I (set_cleaning b d).
Variable h : OnTargetEvent.

Lemma invariant_run_ops ops d : I d → I (run_ops ops d).
Proof.
  intros Hd. induction ops as [|o ops IH] using rev_ind; [done|].
  rewrite run_ops_snoc. by apply I_op.
Qed.

Lemma invariant_handler t r p d : I d → I (handler h t r p d).
Proof.
  intros Hd.
  assert (Hh : I (handled h t r p d)).
  { unfold handled. apply invariant_run_ops, I_event.
    exact (I_op (DisableWatching t) d Hd). }
  rewrite handler_eq. destruct (h t r p _).1; [|done].
  exact (I_op (EnableWatching t) _ Hh).
Qed.

Lemma invariant_cleanup d : I d → I (cleanup h d).
Proof.
  intros Hd. unfold cleanup. apply I_flag.
  assert (Hrel : ∀ ts d0, I d0 → I (foldl (λ d t, (release_watching t d).2) d0 ts)).
  { induction ts as [|t ts IH]; intros d0 Hd0; [done|]. cbn.
    apply IH. exact (I_op (ReleaseWatching t) d0 Hd0). }
  apply Hrel.
  assert (Hhs : ∀ ts d0, I d0 →
            I (foldl (λ d t, handler h t Event.Cleanup None d) d0 ts)).
  { induction ts as [|t ts IH]; intros d0 Hd0; [done|]. cbn.
    by apply IH, invariant_handler. }
  by apply Hhs, I_flag.
Qed.

Lemma invariant_step a d : I d → I (step h a d).
Proof.
  intros Hd. destruct a as [o|t i r|]; cbn [step].
  - by apply I_op.
  - unfold fire. destruct (_ ≫= _) as [w|]; [|done].
    destruct (Watcher.is_active w); [by apply invariant_handler|done].
  - by apply invariant_cleanup.
Qed.

Lemma invariant_run acts d : I d → I (run h acts d).
Proof.
  intros Hd. induction acts as [|a acts IH] using rev_ind; [done|].
  rewrite run_snoc. by apply invariant_step.
Qed.

End RunInvariant.

(** *** No registered target has an empty sequence *)

Lemma run_op_nonempty o d :
  (∀ t ws, targets d !! t = Some ws → ws ≠ []) →
  ∀ t ws, targets (run_op o d).2 !! t = Some ws → ws ≠ [].
Proof.
  intros Hd t ws. destruct (m_cleaning d) eqn:Hc.
  - pose proof (gated_while_cleaning o d Hc) as Hg.
    destruct o as [t' a|t' f e|t' s|t'|t'|t']; try (rewrite Hg; apply Hd);
      cbn [run_op].
    + rewrite targets_disable_watching. case_decide; [|apply Hd].
      intros (ws0 & Hws0 & ->)%fmap_Some Hnil%fmap_nil_inv. by eapply Hd.
    + rewrite targets_release_watching. intros [_ Hws]%lookup_delete_Some.
      by eapply Hd.
  - assert (Hw : ∀ fresh approve start t',
              targets (watch_body fresh approve start t' d).2 !! t = Some ws →
              ws ≠ []).
    { intros fresh approve start t'. rewrite watch_body_eq.
      unfold set_targets. cbn [snd targets].
      destruct (decide (t = t')) as [->|Hne].
      - rewrite lookup_insert_eq. intros [= <-] Hnil.
        pose proof (selected_lt_extended fresh approve (found_of t' d)) as Hlt.
        apply (f_equal length) in Hnil. rewrite length_insert in Hnil.
        cbn in Hnil. lia.
      - rewrite lookup_insert_ne by done. apply Hd. }
    destruct o as [t' a|t' f e|t' s|t'|t'|t']; cbn [run_op].
    + rewrite watch_timer_unfold, Hc. apply Hw.
    + rewrite watch_io_unfold, Hc. apply Hw.
    + rewrite watch_signal_unfold, Hc. apply Hw.
    + rewrite (targets_enable_watching _ _ _ Hc). case_decide; [|apply Hd].
      intros (ws0 & Hws0 & ->)%fmap_Some Hnil%fmap_nil_inv. by eapply Hd.
    + rewrite targets_disable_watching. case_decide; [|apply Hd].
      intros (ws0 & Hws0 & ->)%fmap_Some Hnil%fmap_nil_inv. by eapply Hd.
    + rewrite targets_release_watching. intros [_ Hws]%lookup_delete_Some.
      by eapply Hd.
Qed.

(** X13. In every state a run reaches, a registered target holds at least
    one watcher: an entry enters the registry together with its first
    watcher and leaves it as a whole. *)
Theorem sequences_never_empty
    (on_target_event : OnTargetEvent) (hooks : bool) (acts : list Action)
    (target : Z) (ws : Watchers) :
  targets (run on_target_event acts (Dispatcher_new hooks)) !! target = Some ws →
  ws ≠ [].
Proof.
  revert target ws.
  apply (invariant_run (λ d, ∀ t ws, targets d !! t = Some ws → ws ≠ [])).
  - apply run_op_nonempty.
  - done.
  - done.
  - intros t ws. cbn. by rewrite lookup_empty.
Qed.

Lemma sequences_never_empty_witness :
  [WTimer (mk_ev_timer false d_minus_one d_zero)] ≠ [].
Proof.
  apply (sequences_never_empty (λ _ _ _ _, (true, [])) false
           [Invoke (WatchTimer 1 d_minus_one)] 1).
  reflexivity.
Defined.

(** X14. In every state a run reaches, the sequence of a target holds at
    most one timer watcher, no two I/O watchers with the same descriptor and
    no two signal watchers with the same signal number, and descriptors and
    signal numbers are at least -1. *)
Theorem one_watcher_per_identity
    (on_target_event : OnTargetEvent) (hooks : bool) (acts : list Action)
    (target : Z) (ws : Watchers) (i j : nat) :
  targets (run on_target_event acts (Dispatcher_new hooks)) !! target = Some ws →
  (∀ x y, ws !! i = Some (WTimer x) → ws !! j = Some (WTimer y) → i = j)
  ∧ (∀ x y, ws !! i = Some (WIo x) → ws !! j = Some (WIo y) →
            io_fd x = io_fd y → i = j)
  ∧ (∀ x y, ws !! i = Some (WSignal x) → ws !! j = Some (WSignal y) →
            signal_signum x = signal_signum y → i = j)
  ∧ (∀ x, ws !! i = Some (WIo x) → -1 ≤ io_fd x)
  ∧ (∀ x, ws !! i = Some (WSignal x) → -1 ≤ signal_signum x).
Proof.
  intros Hws.
  pose proof (run_well_formed on_target_event acts hooks target ws Hws) as Hok.
  split; [|split; [|split; [|split]]].
  - intros x y Hi Hj. by eapply (reuse_ok_unique ws).
  - intros x y Hi Hj Hfd. by eapply (reuse_ok_unique ws).
  - intros x y Hi Hj Hs. by eapply (reuse_ok_unique ws).
  - intros x Hi. exact (proj1 Hok i _ Hi).
  - intros x Hi. exact (proj1 Hok i _ Hi).
Qed.

Lemma one_watcher_per_identity_witness :
  targets (run (λ _ _ _ _, (true, []))
             [Invoke (WatchTimer 1 d_zero); Invoke (WatchIo 1 4 Event.Read)]
             (Dispatcher_new false)) !! 1
  = Some [WTimer (mk_ev_timer true d_zero d_zero); WIo (mk_ev_io true 4 Event.Read)]
  ∧ -1 ≤ io_fd (mk_ev_io true 4 Event.Read).
Proof.
  split; [reflexivity|].
  destruct (one_watcher_per_identity (λ _ _ _ _, (true, [])) false
              [Invoke (WatchTimer 1 d_zero); Invoke (WatchIo 1 4 Event.Read)] 1
              [WTimer (mk_ev_timer true d_zero d_zero); WIo (mk_ev_io true 4 Event.Read)]
              1%nat 1%nat eq_refl) as (_ & _ & _ & Hfd & _).
  exact (Hfd _ eq_refl).
Defined.

(** *** The hooks alternate *)

Lemma prefix_snoc_inv (l1 l : list Call) (c : Call) :
  l1 `prefix_of` l ++ [c] → l1 `prefix_of` l ∨ l1 = l ++ [c].
Proof.
  intros [k Hk]. destruct k as [|x k _] using rev_ind.
  - right. by rewrite app_nil_r in Hk.
  - left. rewrite app_assoc in Hk. apply app_inj_tail in Hk as [-> _].
    by exists k.
Qed.

Lemma registered_le_1 t d : (registered t d ≤ 1)%nat.
Proof. unfold registered. case_decide; lia. Qed.

Lemma paired_grow d d' :
  paired d → on_target_present d' = true → balanced d' →
  (calls d' = calls d ∨ ∃ c, calls d' = calls d ++ [c]) →
  paired d'.
Proof.
  intros (_ & _ & Halt) Hp Hb Hcalls. split; [done|]. split; [done|].
  destruct Hcalls as [Heq|[c Heq]]; [by rewrite Heq|].
  intros l1 t Hpre. rewrite Heq in Hpre.
  apply prefix_snoc_inv in Hpre as [Hpre| ->]; [by apply Halt|].
  rewrite <- Heq. specialize (Hb t). pose proof (registered_le_1 t d'). lia.
Qed.

Lemma hook_step_grows d d' :
  hook_step d d' →
  calls d' = calls d ∨ ∃ c, calls d' = calls d ++ [c].
Proof.
  intros [_ ->|t0 _ _ _ ->|t0 _ _ ->]; [by left|..];
    destruct (on_target_present d); rewrite ?app_nil_r; eauto.
Qed.

Lemma run_op_paired o d : paired d → paired (run_op o d).2.
Proof.
  intros Hd. destruct (run_op_hook_step o d) as [Hf Hs].
  pose proof Hd as (Hp & Hb & _).
  apply (paired_grow d); [done|by rewrite (flags_hooks _ _ Hf)|..].
  - by eapply hook_step_balanced.
  - by apply hook_step_grows.
Qed.

Lemma record_event_paired t r p d :
  paired d → paired (record_call (OnEvent t r p) d).
Proof.
  intros Hd. pose proof Hd as (Hp & Hb & _).
  apply (paired_grow d); [done|done|by apply record_event_balanced|].
  right. by eexists.
Qed.

Lemma run_paired h acts : paired (run h acts (Dispatcher_new true)).
Proof.
  apply (invariant_run paired).
  - apply run_op_paired.
  - apply record_event_paired.
  - done.
  - split; [done|]. split; [by intros t|].
    intros l1 t ->%prefix_nil_inv. cbn. lia.
Qed.

(** X15. With the hooks configured, in the trace of any run the calls
    [on_apply(T)] and [on_free(T)] of each target alternate, beginning with
    [on_apply(T)]: at every point of the trace the [on_free] calls do not
    outnumber the [on_apply] calls, which lead by one at most. *)
Theorem hooks_alternate
    (on_target_event : OnTargetEvent) (acts : list Action) :
  alternating (calls (run on_target_event acts (Dispatcher_new true))).
Proof. apply run_paired. Qed.

(** *** Without hooks *)

Lemma run_op_hookless o d : hookless d → hookless (run_op o d).2.
Proof.
  intros [Hp Hev]. destruct (run_op_hook_step o d) as [Hf Hs].
  split; [by rewrite (flags_hooks _ _ Hf)|].
  destruct Hs as [_ ->|t0 _ _ _ ->|t0 _ _ ->]; rewrite ?Hp, ?app_nil_r; done.
Qed.

(** X16. A dispatcher built without the apply/free hooks never calls
    them: the trace of any run holds handler invocations only. *)
Theorem no_hooks_no_hook_calls
    (on_target_event : OnTargetEvent) (acts : list Action) :
  Forall (λ c, is_on_event c = true)
    (calls (run on_target_event acts (Dispatcher_new false))).
Proof.
  apply (invariant_run hookless).
  - apply run_op_hookless.
  - intros t r p d [Hp Hev]. split; [done|].
    apply Forall_app. split; [done|]. by apply Forall_singleton.
  - done.
  - by split.
Qed.

(** *** The reference counts of the Python binding *)

Lemma Py_refcnt_count t rc l :
  Py_refcnt t rc l
  = rc + Z.of_nat (count_calls (is_apply t) l) - Z.of_nat (count_calls (is_free t) l).
Proof.
  unfold Py_refcnt. induction l as [|c l IH] using rev_ind; [cbn; lia|].
  rewrite foldl_snoc, IH, !count_calls_app, !count_calls_one.
  destruct c as [t'|t'|]; cbn; repeat case_decide; repeat case_bool_decide;
    try done; lia.
Qed.

(** X17. The Python binding increments the reference count of a target in
    [on_apply] and decrements it in [on_free]. After any run the count of
    a target is the initial one plus one if the target is registered; at no
    point of the run is it below the initial one or more than one above;
    and after the cleanup scan that ends [start()] it is the initial one. *)
Theorem py_refcount_balance
    (on_target_event : OnTargetEvent) (acts : list Action) (t rc : Z) :
  let d := run on_target_event acts (Dispatcher_new true) in
  Py_refcnt t rc (calls d) = rc + Z.of_nat (registered t d)
  ∧ (∀ l1, l1 `prefix_of` calls d → rc ≤ Py_refcnt t rc l1 ≤ rc + 1)
  ∧ Py_refcnt t rc (calls (cleanup on_target_event d)) = rc.
Proof.
  cbn zeta. split; [|split].
  - destruct (run_paired on_target_event acts) as (_ & Hb & _).
    rewrite Py_refcnt_count, (Hb t). lia.
  - intros l1 Hpre. destruct (run_paired on_target_event acts) as (_ & _ & Halt).
    rewrite Py_refcnt_count. specialize (Halt l1 t Hpre). lia.
  - destruct (run_paired on_target_event (acts ++ [Cleanup])) as (_ & Hb & _).
    rewrite run_snoc in Hb. cbn [step] in Hb. specialize (Hb t).
    destruct (cleanup_scan on_target_event
                (run on_target_event acts (Dispatcher_new true))) as (Hempty & _).
    rewrite (registered_empty _ _ Hempty) in Hb.
    rewrite Py_refcnt_count, Hb. lia.
Qed.

(** Target 1 is watched once: its count is one above the initial 5. *)
Lemma py_refcount_balance_witness :
  5 ≤ Py_refcnt 1 5 [OnApply 1] ≤ 5 + 1.
Proof.
  destruct (py_refcount_balance (λ _ _ _ _, (true, []))
              [Invoke (WatchTimer 1 d_zero)] 1 5) as (_ & Hp & _).
  apply (Hp [OnApply 1]). exists []. reflexivity.
Defined.

(** ** More on deliveries and on the cleanup scan *)

Lemma run_ops_events ops d :
  events_of (calls (run_ops ops d)) = events_of (calls d).
Proof.
  induction ops as [|o ops IH] using rev_ind; [done|].
  rewrite run_ops_snoc.
  by rewrite (hook_step_events _ _ (proj2 (run_op_hook_step o (run_ops ops d)))).
Qed.

(** X18. Every delivery invokes the user handler once, whether the target
    is registered or not (as for a target released earlier in a cleanup
    scan), and whatever the handler does in its turn: the handler
    invocations of the trace grow by exactly this one. *)
Theorem handler_invokes_once
    (on_target_event : OnTargetEvent) (target revents : Z) (payload : option Z)
    (d : Dispatcher) :
  events_of (calls (handler on_target_event target revents payload d))
  = events_of (calls d) ++ [OnEvent target revents payload].
Proof.
  assert (Hh : events_of (calls (handled on_target_event target revents payload d))
               = events_of (calls d) ++ [OnEvent target revents payload]).
  { unfold handled. rewrite run_ops_events.
    change (calls (record_call ?c ?d0)) with (calls d0 ++ [c]).
    rewrite events_of_app.
    by rewrite (hook_step_events _ _ (proj2 (disable_watching_hook_step target d))). }
  rewrite handler_eq. destruct (on_target_event _ _ _ _).1; [|done].
  by rewrite (hook_step_events _ _ (proj2 (enable_watching_hook_step target _))).
Qed.

Lemma run_ops_app ops1 ops2 d :
  run_ops (ops1 ++ ops2) d = run_ops ops2 (run_ops ops1 d).
Proof. apply foldl_app. Qed.

Lemma run_ops_cons o ops d :
  run_ops (o :: ops) d = run_ops ops (run_op o d).2.
Proof. reflexivity. Qed.

Lemma enable_watching_absent target d :
  targets d !! target = None → (enable_watching target d).2 = d.
Proof.
  intros Hno. unfold enable_watching. rewrite Hno. by destruct (m_cleaning d).
Qed.

(** X19. A handler may release the target it is called for: if its calls
    hold a [release_watching(T)] that no later call of it on [T] follows,
    then [T] is out of the registry when the delivery ends, whatever the
    handler returns; a true result re-arms nothing. *)
Theorem released_in_handler_stays_released
    (on_target_event : OnTargetEvent) (target revents : Z) (payload : option Z)
    (d : Dispatcher) (ops1 ops2 : list Op) :
  (on_target_event target revents payload (disable_watching target d).2).2
  = ops1 ++ ReleaseWatching target :: ops2 →
  Forall (λ o, op_target o ≠ target) ops2 →
  targets (handler on_target_event target revents payload d) !! target = None.
Proof.
  intros Hops Hafter.
  assert (Hh : targets (handled on_target_event target revents payload d) !! target
               = None).
  { unfold handled. rewrite Hops, run_ops_app, run_ops_cons.
    rewrite run_ops_other by done. apply release_watching_gone. }
  rewrite handler_eq. destruct (on_target_event _ _ _ _).1; [|done].
  by rewrite enable_watching_absent.
Qed.

(** The handler of an I/O event releases its target and answers true. *)
Lemma released_in_handler_stays_released_witness :
  let h : OnTargetEvent := λ t _ _ _, (true, [ReleaseWatching t]) in
  let d := (watch_io 1 4 Event.Read (Dispatcher_new true)).2 in
  targets (handler h 1 Event.Read (Some 4) d) !! 1 = None.
Proof.
  intros h d.
  apply (released_in_handler_stays_released h 1 Event.Read (Some 4) d [] []).
  - reflexivity.
  - apply Forall_nil_2.
Defined.

Lemma disable_watching_keeps target d :
  calls (disable_watching target d).2 = calls d
  ∧ dom (targets (disable_watching target d).2) = dom (targets d).
Proof.
  unfold disable_watching. destruct (targets d !! target) as [ws|] eqn:Ht; [|done].
  split; [done|]. apply dom_insert_lookup_L. by exists ws.
Qed.

Lemma enable_watching_keeps target d :
  calls (enable_watching target d).2 = calls d
  ∧ dom (targets (enable_watching target d).2) = dom (targets d).
Proof.
  unfold enable_watching. destruct (m_cleaning d); [done|].
  destruct (targets d !! target) as [ws|] eqn:Ht; [|done].
  split; [done|]. apply dom_insert_lookup_L. by exists ws.
Qed.

(** A delivery to a handler that calls no operation. *)
Lemma quiet_handler h t r p d :
  (∀ t r p d0, (h t r p d0).2 = []) →
  calls (handler h t r p d) = calls d ++ [OnEvent t r p]
  ∧ dom (targets (handler h t r p d)) = dom (targets d).
Proof.
  intros Hq. destruct (disable_watching_keeps t d) as [Hc Hd].
  assert (Hh : calls (handled h t r p d) = calls d ++ [OnEvent t r p]
               ∧ dom (targets (handled h t r p d)) = dom (targets d)).
  { unfold handled. rewrite Hq. cbn. by rewrite Hc. }
  rewrite handler_eq. destruct (h t r p _).1; [|done].
  destruct (enable_watching_keeps t (handled h t r p d)) as [-> ->]. done.
Qed.

Lemma quiet_handlers h r p ts d :
  (∀ t r p d0, (h t r p d0).2 = []) →
  let d' := foldl (λ d t, handler h t r p d) d ts in
  calls d' = calls d ++ ((λ t, OnEvent t r p) <$> ts)
  ∧ dom (targets d') = dom (targets d)
  ∧ on_target_present d' = on_target_present d.
Proof.
  intros Hq. revert d. induction ts as [|t ts IH]; intros d; cbn.
  - by rewrite app_nil_r.
  - destruct (IH (handler h t r p d)) as (-> & -> & ->).
    destruct (quiet_handler h t r p d Hq) as [-> ->].
    by rewrite <- app_assoc, (flags_hooks _ _ (handler_flags h t r p d)).
Qed.

Lemma releases_trace ts d :
  NoDup ts → (∀ t, t ∈ ts → t ∈ dom (targets d)) →
  calls (foldl (λ d t, (release_watching t d).2) d ts)
  = calls d ++ (if on_target_present d then OnFree <$> ts else []).
Proof.
  intros Hnd. revert d. induction Hnd as [|t ts Hnotin Hnd IH]; intros d Hin; cbn.
  - by destruct (on_target_present d); rewrite app_nil_r.
  - assert (t ∈ dom (targets d)) as [ws Hws]%elem_of_dom
      by (apply Hin, elem_of_cons; by left).
    rewrite IH.
    + unfold release_watching. rewrite Hws. cbn.
      destruct (on_target_present d) eqn:Hp; cbn; rewrite ?Hp;
        by rewrite <- ?app_assoc.
    + intros t' Ht'. rewrite targets_release_watching, dom_delete_L.
      apply elem_of_difference. split.
      * apply Hin, elem_of_cons. by right.
      * intros ->%elem_of_singleton. done.
Qed.

(** X20. The order of a cleanup scan, for a handler that calls no
    operation of the dispatcher: first one [Cleanup] invocation for each
    target that held an active watcher, then, if hooks are configured, one
    [on_free] for each target of the registry; both in ascending order of
    the targets' addresses, the order of the map. No target is freed before
    the last [Cleanup] invocation was made. *)
Theorem cleanup_trace_order (on_target_event : OnTargetEvent) (d : Dispatcher) :
  (∀ t r p d0, (on_target_event t r p d0).2 = []) →
  calls (cleanup on_target_event d)
  = calls d
    ++ ((λ t, OnEvent t Event.Cleanup None) <$> active_targets d)
    ++ (if on_target_present d then OnFree <$> all_targets d else [])
  ∧ Sorted Z.le (all_targets d)
  ∧ active_targets d `sublist_of` all_targets d.
Proof.
  intros Hq. split; [|split].
  - unfold cleanup.
    set (d0 := set_cleaning true d).
    change ((filter _ (target_pairs d0)).*1) with (active_targets d).
    change ((target_pairs d0).*1) with (all_targets d).
    destruct (quiet_handlers on_target_event Event.Cleanup None
                (active_targets d) d0 Hq) as (Hc & Hd & Hp).
    set (d1 := foldl _ d0 (active_targets d)) in *.
    change (calls (set_cleaning false ?x)) with (calls x).
    rewrite releases_trace.
    + rewrite Hc, Hp. cbn. by rewrite <- app_assoc.
    + apply all_targets_NoDup.
    + intros t Ht. rewrite Hd. by apply elem_of_all_targets.
  - unfold all_targets, target_pairs.
    apply (Sorted_fmap fst key_le Z.le); [done|].
    apply Sorted_merge_sort. intros p q. unfold key_le. lia.
  - apply fmap_sublist, sublist_filter.
Qed.

(** Targets 3 and 1 with armed timers, target 2 with a watcher that could
    not be armed; hooks configured. *)
Lemma cleanup_trace_order_witness :
  let h : OnTargetEvent := λ _ _ _ _, (true, []) in
  let d := run h [Invoke (WatchTimer 3 d_one); Invoke (WatchTimer 1 d_one);
                  Invoke (WatchTimer 2 d_minus_one)] (Dispatcher_new true) in
  calls (cleanup h d)
  = [OnApply 3; OnApply 1; OnApply 2;
     OnEvent 1 Event.Cleanup None; OnEvent 3 Event.Cleanup None;
     OnFree 1; OnFree 2; OnFree 3].
Proof.
  intros h d.
  exact (proj1 (cleanup_trace_order h d (λ _ _ _ _, eq_refl))).
Defined.

(** ** Watching again what is watched already *)

(** In a well-formed sequence the scan selects the watcher of the
    requested kind and identity, wherever it sits. *)
Lemma selected_existing k r fresh approve start (ws : Watchers) i w :
  request k r fresh approve start → reuse_ok ws →
  ws !! i = Some w → kind_of w = k → id_of w = r →
  selected fresh approve ws = (i, w) ∧ extended fresh approve ws = ws.
Proof.
  intros Hreq [_ Hp] Hi Hk Hid.
  assert (Hw : approve w = true)
    by (apply (req_approve _ _ _ _ _ Hreq); auto).
  unfold selected, extended.
  destruct (list_find _ ws) as [[j x]|] eqn:Hf; cbn.
  - split; [|done]. apply list_find_Some in Hf as (Hj & Hx & Hfirst).
    destruct (Nat.lt_trichotomy j i) as [Hlt|[->|Hlt]].
    + apply (req_approve _ _ _ _ _ Hreq) in Hx as [Hkx Hidx].
      destruct (Hp j i x w Hlt Hj Hi) as [Hne Hbound]; [congruence|].
      destruct Hidx; congruence.
    + congruence.
    + by destruct (Hfirst i w Hi Hlt).
  - apply list_find_None in Hf.
    destruct (proj1 (Forall_forall _ _) Hf w); [by eapply list_elem_of_lookup_2|done].
Qed.

Lemma watch_body_in_place k r fresh approve start target d (ws : Watchers) i w :
  request k r fresh approve start → well_formed d →
  targets d !! target = Some ws →
  ws !! i = Some w → kind_of w = k → id_of w = r →
  targets (watch_body fresh approve start target d).2 !! target
  = Some (<[i := (start w).2]> ws).
Proof.
  intros Hreq Hwf Hws Hi Hk Hid.
  rewrite watch_body_eq. unfold set_targets. cbn [snd targets].
  rewrite lookup_insert_eq. unfold found_of. rewrite Hws.
  change (default [] (Some ws)) with ws.
  by destruct (selected_existing k r fresh approve start ws i w Hreq
                 (Hwf target ws Hws) Hi Hk Hid) as [-> ->].
Qed.

(** X21. Watching again is an update in place. In any state a run
    reaches, when the sequence of [T] holds a timer watcher, [watch_timer]
    re-parameterises that watcher where it sits; when it holds an I/O
    watcher on [fd >= 0], [watch_io(T, fd, events)] re-parameterises that
    one; when it holds a signal watcher for [signum >= 0],
    [watch_signal(T, signum)] restarts that one. Every other watcher of the
    sequence, and the length of the sequence, are as before. *)
Theorem rewatch_updates_in_place
    (on_target_event : OnTargetEvent) (hooks : bool) (acts : list Action)
    (target : Z) (ws : Watchers) (i : nat)
    (timeout : double) (fd events signum : Z) :
  let d := run on_target_event acts (Dispatcher_new hooks) in
  targets d !! target = Some ws →
  (∀ x, ws !! i = Some (WTimer x) →
     targets (watch_timer target timeout d).2 !! target
     = Some (<[i := WTimer (mk_ev_timer (SFleb d_zero timeout)
                       (if SFltb timeout d_zero then d_minus_one else timeout)
                       (if SFltb timeout d_zero then d_zero else timeout))]> ws))
  ∧ (∀ x, ws !! i = Some (WIo x) → io_fd x = fd → 0 ≤ fd →
       targets (watch_io target fd events d).2 !! target
       = Some (<[i := WIo (mk_ev_io (0 <? events) fd (Z.max events 0))]> ws))
  ∧ (∀ x, ws !! i = Some (WSignal x) → signal_signum x = signum → 0 ≤ signum →
       targets (watch_signal target signum d).2 !! target
       = Some (<[i := WSignal (mk_ev_signal true signum)]> ws)).
Proof.
  cbn zeta. intros Hws.
  pose proof (run_not_cleaning on_target_event acts hooks) as Hc.
  pose proof (run_well_formed on_target_event acts hooks) as Hwf.
  set (d := run on_target_event acts (Dispatcher_new hooks)) in *.
  split; [|split].
  - intros x Hi. rewrite watch_timer_unfold, Hc. cbn [negb].
    rewrite (watch_body_in_place _ _ _ _ _ target d ws i (WTimer x)
               (request_timer timeout) Hwf Hws Hi eq_refl eq_refl).
    unfold start_timer. by rewrite TimerWatcher_start_eq.
  - intros x Hi Hfd Hge. rewrite watch_io_unfold, Hc. cbn [negb].
    rewrite (watch_body_in_place _ _ _ _ _ target d ws i (WIo x)
               (request_io fd events) Hwf Hws Hi eq_refl Hfd).
    unfold start_io. rewrite IoWatcher_start_eq, (Z.max_l fd) by lia.
    by rewrite (proj2 (Z.leb_le 0 fd)).
  - intros x Hi Hs Hge. rewrite watch_signal_unfold, Hc. cbn [negb].
    rewrite (watch_body_in_place _ _ _ _ _ target d ws i (WSignal x)
               (request_signal signum) Hwf Hws Hi eq_refl Hs).
    unfold start_signal. rewrite SignalWatcher_start_eq, (Z.max_l signum) by lia.
    by rewrite (proj2 (Z.leb_le 0 signum)).
Qed.

(** Target 1 holds a timer and an I/O watcher on descriptor 4; the timer is
    given a new timeout and the I/O watcher a new mask. *)
Lemma rewatch_updates_in_place_witness :
  let h : OnTargetEvent := λ _ _ _ _, (true, []) in
  let d := run h [Invoke (WatchTimer 1 d_zero); Invoke (WatchIo 1 4 Event.Read)]
             (Dispatcher_new false) in
  targets (watch_timer 1 d_one d).2 !! 1
  = Some [WTimer (mk_ev_timer true d_one d_one); WIo (mk_ev_io true 4 Event.Read)]
  ∧ targets (watch_io 1 4 Event.Write d).2 !! 1
    = Some [WTimer (mk_ev_timer true d_zero d_zero); WIo (mk_ev_io true 4 Event.Write)].
Proof.
  intros h d.
  destruct (rewatch_updates_in_place h false
              [Invoke (WatchTimer 1 d_zero); Invoke (WatchIo 1 4 Event.Read)] 1
              [WTimer (mk_ev_timer true d_zero d_zero); WIo (mk_ev_io true 4 Event.Read)]
              0%nat d_one 4 Event.Write 2 eq_refl) as (Ht & _ & _).
  destruct (rewatch_updates_in_place h false
              [Invoke (WatchTimer 1 d_zero); Invoke (WatchIo 1 4 Event.Read)] 1
              [WTimer (mk_ev_timer true d_zero d_zero); WIo (mk_ev_io true 4 Event.Read)]
              1%nat d_one 4 Event.Write 2 eq_refl) as (_ & Hio & _).
  split.
  - exact (Ht _ eq_refl).
  - apply (Hio _ eq_refl eq_refl). discriminate.
Defined.

(** ** The wrappers of the Python binding *)

(** X22. The [watch_*] methods of the Python binding leave the state the
    base method leaves and raise exactly when it returns false: when a
    cleanup is in progress, or when the timeout is not [>= 0], the
    descriptor is negative or the mask not positive, the signal number is
    negative. A call that raises outside cleanup has nevertheless entered
    the target into the registry. *)
Theorem py_watch_raises (target : Z) (timeout : double) (fd events signum : Z)
    (d : Dispatcher) :
  ((PyDispatcher.watch_timer target timeout d).2 = (watch_timer target timeout d).2
   ∧ (is_Some (PyDispatcher.watch_timer target timeout d).1
      ↔ m_cleaning d = true ∨ SFleb d_zero timeout = false))
  ∧ ((PyDispatcher.watch_io target fd events d).2 = (watch_io target fd events d).2
     ∧ (is_Some (PyDispatcher.watch_io target fd events d).1
        ↔ m_cleaning d = true ∨ fd < 0 ∨ events ≤ 0))
  ∧ ((PyDispatcher.watch_signal target signum d).2 = (watch_signal target signum d).2
     ∧ (is_Some (PyDispatcher.watch_signal target signum d).1
        ↔ m_cleaning d = true ∨ signum < 0))
  ∧ (m_cleaning d = false →
     is_Some (targets (PyDispatcher.watch_timer target timeout d).2 !! target)
     ∧ is_Some (targets (PyDispatcher.watch_io target fd events d).2 !! target)
     ∧ is_Some (targets (PyDispatcher.watch_signal target signum d).2 !! target)).
Proof.
  assert (Ht : (watch_timer target timeout d).1
               = negb (m_cleaning d) && SFleb d_zero timeout).
  { rewrite watch_timer_unfold. destruct (m_cleaning d); cbn [negb andb]; [done|].
    refine (proj1 (watch_body_outcome (WTimer TimerWatcher.new) approve_timer
              (start_timer timeout timeout) is_timer target d
              (SFleb d_zero timeout)
              (WTimer (mk_ev_timer (SFleb d_zero timeout)
                 (if SFltb timeout d_zero then d_minus_one else timeout)
                 (if SFltb timeout d_zero then d_zero else timeout))) _ _ _));
      [done|done|].
    intros [t| |]; [intros _|done..]. unfold start_timer.
    by rewrite TimerWatcher_start_eq. }
  assert (Hi : (watch_io target fd events d).1
               = negb (m_cleaning d) && ((0 <=? fd) && (0 <? events))).
  { rewrite watch_io_unfold. destruct (m_cleaning d); cbn [negb andb]; [done|].
    refine (proj1 (watch_body_outcome (WIo IoWatcher.new) (approve_io fd)
              (start_io fd events) is_io target d
              ((0 <=? fd) && (0 <? events))
              (WIo (mk_ev_io ((0 <=? fd) && (0 <? events))
                      (Z.max fd (-1)) (Z.max events 0))) _ _ _));
      [apply approve_io_is_io|done|].
    intros [|i|]; [done|intros _|done]. unfold start_io.
    by rewrite IoWatcher_start_eq. }
  assert (Hs : (watch_signal target signum d).1
               = negb (m_cleaning d) && (0 <=? signum)).
  { rewrite watch_signal_unfold. destruct (m_cleaning d); cbn [negb andb]; [done|].
    refine (proj1 (watch_body_outcome (WSignal SignalWatcher.new)
              (approve_signal signum) (start_signal signum) is_signal target d
              (0 <=? signum)
              (WSignal (mk_ev_signal (0 <=? signum) (Z.max signum (-1)))) _ _ _));
      [apply approve_signal_is_signal|done|].
    intros [| |s]; [done..|intros _]. unfold start_signal.
    by rewrite SignalWatcher_start_eq. }
  assert (Hraise : ∀ (b : bool) (e : PyDispatcher.runtime_error),
            is_Some (if negb b then Some e else None) ↔ b = false).
  { intros [|] e; cbn; split; intros H; try done;
      first [by destruct H as [? [=]]|by eexists]. }
  unfold PyDispatcher.watch_timer, PyDispatcher.watch_io, PyDispatcher.watch_signal.
  destruct (watch_timer target timeout d) as [rt dt] eqn:Et.
  destruct (watch_io target fd events d) as [ri di] eqn:Ei.
  destruct (watch_signal target signum d) as [rs ds] eqn:Es.
  cbn [fst snd] in *. subst rt ri rs.
  split; [|split; [|split]].
  - split; [done|]. rewrite Hraise, andb_false_iff, negb_false_iff. tauto.
  - split; [done|].
    rewrite Hraise, !andb_false_iff, negb_false_iff, Z.leb_gt, Z.ltb_ge. tauto.
  - split; [done|]. rewrite Hraise, andb_false_iff, negb_false_iff, Z.leb_gt. tauto.
  - intros Hc.
    pose proof (f_equal snd Et) as Et'. pose proof (f_equal snd Ei) as Ei'.
    pose proof (f_equal snd Es) as Es'. cbn [snd] in Et', Ei', Es'. subst dt di ds.
    rewrite watch_timer_unfold, watch_io_unfold, watch_signal_unfold, Hc.
    cbn [negb].
    split; [|split];
      (edestruct watch_body_registry as [(ws & Hws & _) _]; rewrite Hws; by eexists).
Qed.

Lemma py_watch_raises_witness :
  (PyDispatcher.watch_timer 1 d_minus_one (Dispatcher_new true)).1
  = Some PyDispatcher.CannotSetupTimerWatcher
  ∧ is_Some (targets (PyDispatcher.watch_timer 1 d_minus_one
                        (Dispatcher_new true)).2 !! 1).
Proof.
  destruct (py_watch_raises 1 d_minus_one 0 0 0 (Dispatcher_new true))
    as (_ & _ & _ & Hreg).
  split; [reflexivity|exact (proj1 (Hreg eq_refl))].
Defined.
